(* ===== verification/_CoqProject ===== *)
-Q . S2P
Prelude.v
Host.v
Operator.v
Props.v
Registry.v
Lifecycle.v
Addon.v
