(* ===== verification/Prelude.v ===== *)
(** * A verification development of the Blender add-on "Image Denoise Operator"

    Source: [src/Curated Addons/image_denoise_operator.py] (168 lines of
    Python, Martin Lorentzon).  The add-on adds a "Filters > Denoise" entry
    to the Image Editor's Image menu.  The operator [image.denoise] builds a
    temporary compositing scene (Image -> Denoise -> Viewer), renders it,
    copies the Viewer pixels back onto the edited image and deletes the
    scene.

    ** The parts of the program and how they interact

    - The metadata [bl_info] (lines 1-12), read by the add-on manager
      before it calls [register].
    - The operator [IMAGE_OT_denoise] (lines 52-132): properties [image],
      [prefilter], [use_hdr] (which the host fills from the keywords of a
      [bpy.ops.image.denoise(...)] call); [poll]; [execute]; [invoke].  [execute] talks
      to the host through [bpy.data.scenes], a scene's compositor node tree,
      [bpy.ops.render.render] and [bpy.data.images].
    - The menus (lines 30-47) and [register]/[unregister] (lines 136-163):
      the [IMAGE_MT_filters] menu class, the hook [menu_func] appended to the
      host menu [IMAGE_MT_image], and the draw-method wrapping done when
      another add-on derived from this template has already registered a
      Filters menu.  The menu entries name the operator by its idname; the
      host resolves them against the operators registered at draw time.
    - The host (Blender's Python API [bpy]) is not code of this repository.
      Only the part the add-on calls is modelled, as an explicit state.

    ** Files

    - [Prelude] (this file): Python exceptions [PyExc], the outcome of a
      statement sequence [outcome], the state-and-exception monad [PyM]
      (a Python statement that raises keeps the mutations made before the
      raise, so the state is returned on both paths), the [py] notation
      scope, the [pym] hint and rewrite databases, the tactic [pym_simpl],
      and list lemmas shared by the components.
    - [Host]: the part of [bpy] the add-on uses: images ([bpy.data.images]),
      scenes ([bpy.data.scenes]: [in], [[]], [new], [remove]), compositor
      node trees ([nodes.clear], [nodes.new], [links.new] with its
      argument-order normalisation and input-link limit, socket indexing),
      attribute setters that type-check their value, the compositor
      evaluation run by [bpy.ops.render.render] (a fuelled graph walk) and
      the Viewer image it writes.  The denoiser itself (Open Image Denoise)
      is the interface [Denoiser]: a pixel function and the law that it
      keeps the buffer length.
    - [Operator]: [SCENE_NAME], [BL_IDNAME], the operator's properties,
      [poll], and [execute] as the composition of its stages exactly as in
      lines 77-127; [invoke] (lines 130-132).
    - [Props]: the conversion of call keywords into an operator instance
      by the property declarations (lines 57-70): type checks, enum items,
      defaults, unknown keywords.
    - [Registry]: classes, [bpy.types], [register_class]/[unregister_class],
      the Image menu hooks, draw functions ([IMAGE_MT_filters.draw],
      [new_draw_method] as a closure over the captured original draw),
      [menu_func], [register] and [unregister], parameterised by the add-on
      instance so that several template-derived add-ons and reloaded
      instances can be registered in one host.
    - [Lifecycle]: the whole host (data, registry, open dialog) and a step
      relation of events: enable and disable an add-on instance ([register],
      [unregister]), call the operator with keywords (the host's
      registration and [poll] checks, [Props], then [execute]), choose the
      menu entry ([invoke]), confirm the dialog (which checks [poll] again
      and cancels when it fails) or cancel it; reachability is the
      reflexive-transitive closure.
      A generic lemma turns an invariant of the data kept by [execute] and
      one of the registry kept by [register]/[unregister] into an invariant
      of every reachable state.
    - [Addon]: [bl_info], the labels of the menu and the operator, and the
      script entry point [main] (lines 166-167): constants with no behaviour
      of their own, kept as definitions without theorems.

    ** What the theorems show (by group)

    - Operator: [poll] is truthiness of [context.edit_image]; on the normal
      path [execute] returns FINISHED, replaces the edited image's pixels by
      the denoised pixels, and removes the temporary scene whatever state it
      was found in (a scene left behind by a failed run is reused and
      cleared); the compositor graph built is exactly the three-node chain,
      linked output to input although the code passes [links.new] the input
      socket first; on every error path the
      exception raised and the state left behind are stated (the temporary
      scene leaks), including the [image] property path, which always raises
      [TypeError] because a string is assigned where an Image is expected.
    - Registry: register from a clean host; registration of several
      template-derived add-ons lists all operators in one Filters menu, with
      one hook; the stale entry left by [unregister]; duplication of the
      entry on every disable/enable cycle; failure of a double register; the
      dead entry of a derived add-on that renames only [BL_IDNAME].
    - Lifecycle: in every reachable state the Image menu shows the Filters
      submenu at most once, at most one scene named [SCENE_NAME] exists
      (when at most one did at the start); invoking and confirming the dialog
      is the same as a call with the keywords of the dialog's properties;
      enabling the add-on in a fresh host, invoking and confirming denoises
      the edited image as [execute]'s contract says; from every state,
      enabling the add-on makes the operator callable.
    - Props: the keywords of an instance give the instance back: the
      declared names, types and enum items accept every instance.

    ** Bounds and fuel

    The compositor walk ([eval_output]) is fuelled; the render gives it
    [S (length nodes)], one step per node and one more: a walk that follows
    links without repeating a node stops within it, and on the three-node
    graph the operator builds the walk is computed in full (the normal path
    of [execute] is proved with the denoised pixels reaching the Viewer).
    For a tree with a cycle through Denoise nodes the fuel runs out and the
    render writes nothing.  Pixel values are unbounded integers: the add-on
    only moves them.

    ** Not modelled

    Pixel values are integers standing for the float samples (the add-on
    only moves them); the denoiser is abstract; the host's user interface
    rendering, the window manager beyond the props dialog (operator
    properties remembered between invocations are an arbitrary instance in
    [Invoke]), camera and output checks of the renderer, undo, and the
    imports (lines 22-23).
*)

From stdpp Require Export base list gmap strings.
From Stdlib Require Export ZArith.

Declare Scope py_scope.
Delimit Scope py_scope with py.

(** Python exceptions raised by the statements the add-on executes. *)
Inductive PyExc :=
  | TypeError (msg : string)
  | AttributeError (msg : string)
  | ValueError (msg : string)
  | IndexError (msg : string)
  | KeyError (msg : string)
  | ReferenceError (msg : string)
  | RuntimeError (msg : string).

#[export] Instance PyExc_eq_dec : EqDecision PyExc.
Proof. solve_decision. Defined.

(** The outcome of running a statement: a value, or an exception. *)
Inductive outcome (A : Type) :=
  | Ok (a : A)
  | Raise (e : PyExc).
Arguments Ok {A} a.
Arguments Raise {A} e.

(** A statement sequence over a mutable host state [S].  A raise does not
    undo the mutations already done: the state is returned on both paths. *)
Definition PyM (S A : Type) : Type := S -> S * outcome A.

#[export] Instance pym_ret S : MRet (PyM S) := fun A a s => (s, Ok a).
#[export] Instance pym_bind S : MBind (PyM S) := fun A B k c s =>
  match c s with
  | (s', Ok a) => k a s'
  | (s', Raise e) => (s', Raise e)
  end.

Definition raise {S A} (e : PyExc) : PyM S A := fun s => (s, Raise e).
Definition gets {S A} (f : S -> A) : PyM S A := fun s => (s, Ok (f s)).
Definition modify {S} (f : S -> S) : PyM S unit := fun s => (f s, Ok tt).

(** [⟨c, s⟩ ⇓ ⟨s', a⟩]: run in state [s], [c] ends normally in state [s']
    with value [a]; [⟨c, s⟩ ↯ ⟨s', e⟩]: it raises [e], leaving [s']. *)
Notation "⟨ c , s ⟩ ⇓ ⟨ s' , a ⟩" := (c s = (s', Ok a))
  (format "⟨ c ,  s ⟩  ⇓  ⟨ s' ,  a ⟩") : py_scope.
Notation "⟨ c , s ⟩ ↯ ⟨ s' , e ⟩" := (c s = (s', Raise e))
  (format "⟨ c ,  s ⟩  ↯  ⟨ s' ,  e ⟩") : py_scope.

Open Scope py_scope.

Create HintDb pym discriminated.
Create Rewrite HintDb pym_run.

Section Monad.
Context {S : Type}.

Lemma pym_bind_ret {A B} (a : A) (k : A -> PyM S B) s :
  (x ← mret a; k x) s = k a s.
Proof. reflexivity. Qed.

Lemma pym_bind_ok {A B} (c : PyM S A) (k : A -> PyM S B) s s' a :
  c s = (s', Ok a) -> (x ← c; k x) s = k a s'.
Proof. intros H. unfold mbind, pym_bind. by rewrite H. Qed.

Lemma pym_bind_raise {A B} (c : PyM S A) (k : A -> PyM S B) s s' e :
  c s = (s', Raise e) -> (x ← c; k x) s = (s', Raise e).
Proof. intros H. unfold mbind, pym_bind. by rewrite H. Qed.

Lemma pym_bind_assoc {A B C} (c : PyM S A) (f : A -> PyM S B)
      (g : B -> PyM S C) s :
  (y ← (x ← c; f x); g y) s = (x ← c; y ← f x; g y) s.
Proof.
  unfold mbind, pym_bind. destruct (c s) as [s1 [a|e]]; [|done].
  by destruct (f a s1) as [s2 [b|e']].
Qed.

Lemma pym_raise_bind {A B} e (k : A -> PyM S B) s :
  (x ← raise e; k x) s = (s, Raise e).
Proof. reflexivity. Qed.

Lemma pym_gets_bind {A B} (f : S -> A) (k : A -> PyM S B) s :
  (x ← gets f; k x) s = k (f s) s.
Proof. reflexivity. Qed.

Lemma pym_modify_bind {B} (f : S -> S) (k : unit -> PyM S B) s :
  (x ← modify f; k x) s = k tt (f s).
Proof. reflexivity. Qed.
End Monad.

#[export] Hint Rewrite @pym_bind_ret @pym_bind_assoc @pym_raise_bind
  @pym_gets_bind @pym_modify_bind : pym_run.

(** Run a monadic program forward: rewrite the bind laws, then use the
    hypotheses that name the result of the first statement. *)
Ltac pym_simpl :=
  repeat (autorewrite with pym_run;
          match goal with
          | H : ?c ?s = (_, Ok _) |- context [(_ ← ?c; _) ?s] =>
              rewrite (pym_bind_ok _ _ _ _ _ H)
          | H : ?c ?s = (_, Raise _) |- context [(_ ← ?c; _) ?s] =>
              rewrite (pym_bind_raise _ _ _ _ _ H)
          end).

(** ** Triples over [PyM]

    [triple P c Q E]: from a state satisfying [P], [c] either returns [a] in
    a state satisfying [Q a], or raises [e] in a state satisfying [E e].
    The exceptional postcondition is what the error paths leave behind. *)

Definition triple {S A} (P : S -> Prop) (c : PyM S A)
           (Q : A -> S -> Prop) (E : PyExc -> S -> Prop) : Prop :=
  forall s, P s ->
    match c s with
    | (s', Ok a) => Q a s'
    | (s', Raise e) => E e s'
    end.

Section Triples.
Context {S : Type}.
Implicit Types (P : S -> Prop) (E : PyExc -> S -> Prop).

Lemma triple_ret {A} P (a : A) E : triple P (mret a) (fun x s => x = a /\ P s) E.
Proof. intros s Hs. by split. Qed.

Lemma triple_bind {A B} P Q R E (c : PyM S A) (k : A -> PyM S B) :
  triple P c Q E -> (forall a, triple (Q a) (k a) R E) ->
  triple P (x ← c; k x) R E.
Proof.
  intros Hc Hk s Hs. specialize (Hc s Hs). unfold mbind, pym_bind.
  destruct (c s) as [s1 [a|e]]; [|done]. by apply Hk.
Qed.

(** Bind where the first statement's value is known. *)
Lemma triple_bind_eq {A B} P I R E (c : PyM S A) (a0 : A) (k : A -> PyM S B) :
  triple P c (fun a s => a = a0 /\ I s) E -> triple I (k a0) R E ->
  triple P (x ← c; k x) R E.
Proof.
  intros Hc Hk. apply triple_bind with (Q := fun a s => a = a0 /\ I s); [done|].
  intros a s [-> Hs]. by apply Hk.
Qed.

Lemma triple_weaken {A} P P' (c : PyM S A) Q Q' E E' :
  triple P' c Q' E' ->
  (forall s, P s -> P' s) ->
  (forall a s, Q' a s -> Q a s) ->
  (forall e s, E' e s -> E e s) ->
  triple P c Q E.
Proof.
  intros Hc HP HQ HE s Hs. specialize (Hc s (HP s Hs)).
  destruct (c s) as [s1 [a|e]]; auto.
Qed.

Lemma triple_raise {A} P e E :
  (forall s, P s -> E e s) -> triple (A:=A) P (raise e) (fun _ _ => False) E.
Proof. intros HE s Hs. by apply HE. Qed.

Lemma triple_gets {A} P (f : S -> A) E :
  triple P (gets f) (fun a s => a = f s /\ P s) E.
Proof. intros s Hs. by split. Qed.

Lemma triple_modify P (f : S -> S) E :
  triple P (modify f) (fun _ s' => exists s, P s /\ s' = f s) E.
Proof. intros s Hs. simpl. eauto. Qed.

(** A predicate kept by every run of [c], whichever way it ends. *)
Definition preserves {A} (I : S -> Prop) (c : PyM S A) : Prop :=
  triple I c (fun _ => I) (fun _ => I).

Lemma preserves_bind {A B} I (c : PyM S A) (k : A -> PyM S B) :
  preserves I c -> (forall a, preserves I (k a)) -> preserves I (x ← c; k x).
Proof. intros Hc Hk. by apply triple_bind with (Q := fun _ => I). Qed.

Lemma preserves_ret {A} I (a : A) : preserves I (mret a).
Proof. by intros s Hs. Qed.

Lemma preserves_raise {A} I e : preserves (A:=A) I (raise e).
Proof. by intros s Hs. Qed.

Lemma preserves_gets {A} I (f : S -> A) : preserves I (gets f).
Proof. by intros s Hs. Qed.

Lemma preserves_fst {A} I (c : PyM S A) s : preserves I c -> I s -> I (fst (c s)).
Proof. intros Hc Hs. specialize (Hc s Hs). by destruct (c s) as [s' [a|e]]. Qed.

Lemma fst_bind_ret {A} (c : PyM S A) s : fst ((_ ← c; mret tt) s) = fst (c s).
Proof. unfold mbind, pym_bind. by destruct (c s) as [s' [a|e]]. Qed.

Lemma preserves_modify I (f : S -> S) :
  (forall s, I s -> I (f s)) -> preserves I (modify f).
Proof. intros Hf s Hs. by apply Hf. Qed.
End Triples.

#[export] Hint Resolve preserves_bind preserves_ret preserves_raise
  preserves_gets : pym.

(** ** Lists shared by the components *)

Section Lists.
Context {A : Type}.

(** [find] on a mapped list where the map keeps the tested property. *)
Lemma find_map_same (f : A -> A) (p : A -> bool) (l : list A) :
  (forall x, p (f x) = p x) ->
  find p (map f l) = f <$> find p l.
Proof.
  intros Hp. induction l as [|x l IH]; [done|]. simpl.
  rewrite Hp. destruct (p x); [done|]. exact IH.
Qed.

Lemma find_app_none (p : A -> bool) (l1 l2 : list A) :
  find p l1 = None -> find p (l1 ++ l2) = find p l2.
Proof.
  induction l1 as [|x l1 IH]; [done|]. simpl.
  destruct (p x); [discriminate|]. exact IH.
Qed.

Lemma existsb_filter_neg (p : A -> bool) (l : list A) :
  existsb p (List.filter (fun x => negb (p x)) l) = false.
Proof.
  induction l as [|x l IH]; [done|]. simpl.
  destruct (p x) eqn:E; simpl; [exact IH|]. by rewrite E.
Qed.

Lemma find_none_existsb (p : A -> bool) (l : list A) :
  find p l = None <-> existsb p l = false.
Proof.
  induction l as [|x l IH]; [done|]. simpl.
  destruct (p x); simpl; [split; discriminate|]. exact IH.
Qed.
Lemma filter_map_filter_le {B} (p : B -> bool) (f : A -> B) (q : A -> bool) (l : list A) :
  length (List.filter p (map f (List.filter q l))) <= length (List.filter p (map f l)).
Proof.
  induction l as [|x l IH]; simpl; [lia|].
  destruct (q x), (p (f x)) eqn:E; simpl; rewrite ?E; simpl; lia.
Qed.
End Lists.

#[export] Hint Resolve existsb_filter_neg : pym.
