(* ===== verification/Host.v ===== *)
(** * Host: the part of Blender's [bpy] API that the add-on calls

    Images and scenes of [bpy.data], a scene's compositor node tree, the
    attribute setters the add-on uses, and the compositor evaluation run by
    [bpy.ops.render.render].  The host is not code of the repository: this
    file fixes the behaviour the add-on relies on, and the operator's
    theorems are proved against it.  Scene, image and node references held
    by Python variables are modelled by their names or, for nodes, their
    positions in the tree (nodes are only appended while the add-on holds
    them).  The denoising filter is the interface [Denoiser]. *)

From S2P Require Import Prelude.

(** [Image.type] *)
Inductive ImageType := IMAGE | MULTILAYER | UV_TEST | RENDER_RESULT | COMPOSITING.

#[export] Instance ImageType_eq_dec : EqDecision ImageType.
Proof. solve_decision. Defined.

Record Image := mkImage {
  img_name : string;
  img_type : ImageType;
  img_pixels : list Z
}.

(** The values of [CompositorNodeDenoise.prefilter]. *)
Inductive Prefilter := NONE | FAST | ACCURATE.

#[export] Instance Prefilter_eq_dec : EqDecision Prefilter.
Proof. solve_decision. Defined.

(** The identifiers of the node's [prefilter] enum, and the assignment of an
    identifier to it ([None]: the host raises [TypeError]). *)
Definition prefilter_identifier (p : Prefilter) : string :=
  match p with NONE => "NONE" | FAST => "FAST" | ACCURATE => "ACCURATE" end.

Definition prefilter_of_identifier (s : string) : option Prefilter :=
  if bool_decide (s = "NONE") then Some NONE
  else if bool_decide (s = "FAST") then Some FAST
  else if bool_decide (s = "ACCURATE") then Some ACCURATE
  else None.

(** A Python value assigned to an attribute: an Image reference (by name), a
    string, or [None]. *)
Inductive PyVal := PImage (name : string) | PStr (s : string) | PNone.

Inductive NodeKind :=
  | CompositorNodeRLayers
  | CompositorNodeComposite
  | CompositorNodeImage
  | CompositorNodeDenoise
  | CompositorNodeViewer.

#[export] Instance NodeKind_eq_dec : EqDecision NodeKind.
Proof. solve_decision. Defined.

(** Number of input and output sockets of each node type. *)
Definition n_inputs (k : NodeKind) : nat :=
  match k with
  | CompositorNodeRLayers => 0
  | CompositorNodeComposite => 2     (* Image, Alpha *)
  | CompositorNodeImage => 0
  | CompositorNodeDenoise => 3       (* Image, Normal, Albedo *)
  | CompositorNodeViewer => 2        (* Image, Alpha *)
  end.

Definition n_outputs (k : NodeKind) : nat :=
  match k with
  | CompositorNodeRLayers => 3       (* Image, Alpha, Depth *)
  | CompositorNodeComposite => 0
  | CompositorNodeImage => 2         (* Image, Alpha *)
  | CompositorNodeDenoise => 1       (* Image *)
  | CompositorNodeViewer => 0
  end.

Record Node := mkNode {
  node_kind : NodeKind;
  node_location : Z * Z;
  node_image : option string;
  node_prefilter : Prefilter;
  node_use_hdr : bool
}.

(** A node as [nodes.new] creates it: at the origin, no image, and the
    denoise defaults [prefilter='ACCURATE'], [use_hdr=True]. *)
Definition new_node (k : NodeKind) : Node :=
  mkNode k (0, 0)%Z None ACCURATE true.

Inductive SockDir := SOCK_IN | SOCK_OUT.

#[export] Instance SockDir_eq_dec : EqDecision SockDir.
Proof. solve_decision. Defined.

Record Socket := mkSocket {
  sock_node : nat;
  sock_dir : SockDir;
  sock_index : nat
}.

#[export] Instance Socket_eq_dec : EqDecision Socket.
Proof. solve_decision. Defined.

Record Link := mkLink { link_from : Socket; link_to : Socket }.

#[export] Instance Link_eq_dec : EqDecision Link.
Proof. solve_decision. Defined.

Record NodeTree := mkTree { nt_nodes : list Node; nt_links : list Link }.

Record Scene := mkScene {
  sc_name : string;
  sc_use_nodes : bool;
  sc_node_tree : option NodeTree
}.

(** The two collections of [bpy.data] the add-on touches. *)
Record BData := mkData { scenes : list Scene; images : list Image }.

(** ** Images *)

Definition image_named (n : string) (im : Image) : bool :=
  bool_decide (img_name im = n).

Definition image_lookup (n : string) (imgs : list Image) : option Image :=
  find (image_named n) imgs.

Definition is_compositing (im : Image) : bool :=
  bool_decide (img_type im = COMPOSITING).

Definition with_pixels (px : list Z) (im : Image) : Image :=
  mkImage (img_name im) (img_type im) px.

Arguments image_named : simpl never.
Arguments is_compositing : simpl never.

(** The compositor writes the Viewer output into the first image of type
    [COMPOSITING] ("Viewer Node"), creating it when there is none. *)
Fixpoint write_viewer (px : list Z) (imgs : list Image) : list Image :=
  match imgs with
  | [] => [mkImage "Viewer Node" COMPOSITING px]
  | im :: rest =>
      if is_compositing im then with_pixels px im :: rest
      else im :: write_viewer px rest
  end.

Definition set_named (n : string) (px : list Z) (im : Image) : Image :=
  if image_named n im then with_pixels px im else im.

(** [image.pixels = px]: the buffer length must match. *)
Definition set_pixels (v : PyVal) (px : list Z) : PyM BData unit :=
  fun d =>
    match v with
    | PImage n =>
        match image_lookup n (images d) with
        | None => (d, Raise (ReferenceError "StructRNA of type Image has been removed"))
        | Some im =>
            if bool_decide (length px = length (img_pixels im)) then
              (mkData (scenes d) (map (set_named n px) (images d)), Ok tt)
            else (d, Raise (ValueError "bpy_struct: item.attr = val: array length mismatch"))
        end
    | PStr _ => (d, Raise (AttributeError "'str' object has no attribute 'pixels'"))
    | PNone => (d, Raise (AttributeError "'NoneType' object has no attribute 'pixels'"))
    end.

(** ** Scenes *)

Definition scene_named (n : string) (sc : Scene) : bool :=
  bool_decide (sc_name sc = n).

Arguments scene_named : simpl never.

(** [n in bpy.data.scenes] *)
Definition scenes_contains (n : string) (d : BData) : bool :=
  existsb (scene_named n) (scenes d).

(** [bpy.data.scenes[n]]; the scene is then referred to by its name. *)
Definition scenes_get (n : string) : PyM BData string :=
  fun d =>
    if scenes_contains n d then (d, Ok n)
    else (d, Raise (KeyError "bpy_prop_collection[key]: key not found")).

(** [bpy.data.scenes.new(n)]: a new scene without a node tree.  The host
    renames a new scene whose name is taken; the add-on only calls [new]
    after checking that the name is free. *)
Definition scenes_new (n : string) : PyM BData string :=
  fun d => (mkData (scenes d ++ [mkScene n false None]) (images d), Ok n).

(** [bpy.data.scenes.remove(scene)] *)
Definition scenes_remove (n : string) : PyM BData unit :=
  modify (fun d =>
    mkData (List.filter (fun sc => negb (scene_named n sc)) (scenes d)) (images d)).

Definition scene_update (n : string) (f : Scene -> Scene) (d : BData) : BData :=
  mkData (map (fun sc => if scene_named n sc then f sc else sc) (scenes d))
         (images d).

(** The tree created by the first [scene.use_nodes = True]: Render Layers
    linked to a Composite output. *)
Definition default_compositor_tree : NodeTree :=
  mkTree [mkNode CompositorNodeRLayers (-300, 0)%Z None ACCURATE true;
          mkNode CompositorNodeComposite (200, 0)%Z None ACCURATE true]
         [mkLink (mkSocket 0 SOCK_OUT 0) (mkSocket 1 SOCK_IN 0)].

(** [scene.use_nodes = b] *)
Definition set_use_nodes (n : string) (b : bool) : PyM BData unit :=
  modify (scene_update n (fun sc =>
    mkScene (sc_name sc) b
      (match sc_node_tree sc with
       | Some t => Some t
       | None => if b then Some default_compositor_tree else None
       end))).

(** Run a node-tree statement on [scene.node_tree] of the scene named [n];
    [scene.node_tree] is [None] without [use_nodes], and [.nodes] on it
    raises. *)
Definition in_tree {A} (n : string) (c : PyM NodeTree A) : PyM BData A :=
  fun d =>
    match find (scene_named n) (scenes d) with
    | None => (d, Raise (KeyError "bpy_prop_collection[key]: key not found"))
    | Some sc =>
        match sc_node_tree sc with
        | None => (d, Raise (AttributeError "'NoneType' object has no attribute 'nodes'"))
        | Some t =>
            let '(t', r) := c t in
            (scene_update n (fun sc0 =>
               mkScene (sc_name sc0) (sc_use_nodes sc0) (Some t')) d, r)
        end
    end.

(** ** Node trees *)

(** [nodes.clear()]: removing the nodes removes their links. *)
Definition nodes_clear : PyM NodeTree unit := modify (fun _ => mkTree [] []).

(** [nodes.new(kind)]: the new node is appended; its position is returned. *)
Definition nodes_new (k : NodeKind) : PyM NodeTree nat :=
  fun t => (mkTree (nt_nodes t ++ [new_node k]) (nt_links t),
            Ok (length (nt_nodes t))).

Definition node_update (i : nat) (f : Node -> Node) : PyM NodeTree unit :=
  modify (fun t => mkTree (alter f i (nt_nodes t)) (nt_links t)).

(** [node.location = loc] *)
Definition set_location (i : nat) (loc : Z * Z) : PyM NodeTree unit :=
  node_update i (fun nd =>
    mkNode (node_kind nd) loc (node_image nd) (node_prefilter nd) (node_use_hdr nd)).

(** [node.image = v]: a pointer property to an Image. *)
Definition set_image (i : nat) (v : PyVal) : PyM NodeTree unit :=
  match v with
  | PImage n => node_update i (fun nd =>
      mkNode (node_kind nd) (node_location nd) (Some n) (node_prefilter nd) (node_use_hdr nd))
  | PNone => node_update i (fun nd =>
      mkNode (node_kind nd) (node_location nd) None (node_prefilter nd) (node_use_hdr nd))
  | PStr _ =>
      raise (TypeError "bpy_struct: item.attr = val: CompositorNodeImage.image expected a Image type, not str")
  end.

(** [node.prefilter = p] *)
Definition set_prefilter (i : nat) (p : Prefilter) : PyM NodeTree unit :=
  node_update i (fun nd =>
    mkNode (node_kind nd) (node_location nd) (node_image nd) p (node_use_hdr nd)).

(** [node.use_hdr = b] *)
Definition set_use_hdr (i : nat) (b : bool) : PyM NodeTree unit :=
  node_update i (fun nd =>
    mkNode (node_kind nd) (node_location nd) (node_image nd) (node_prefilter nd) b).

(** [node.inputs[k]] and [node.outputs[k]]: out of range raises. *)
Definition node_socket (dir : SockDir) (i k : nat) : PyM NodeTree Socket :=
  fun t =>
    match nt_nodes t !! i with
    | None => (t, Raise (ReferenceError "StructRNA of type Node has been removed"))
    | Some nd =>
        let size := match dir with SOCK_IN => n_inputs (node_kind nd)
                                 | SOCK_OUT => n_outputs (node_kind nd) end in
        if bool_decide (k < size) then (t, Ok (mkSocket i dir k))
        else (t, Raise (IndexError "bpy_prop_collection[index]: index out of range"))
    end.

Definition node_input (i k : nat) : PyM NodeTree Socket := node_socket SOCK_IN i k.
Definition node_output (i k : nat) : PyM NodeTree Socket := node_socket SOCK_OUT i k.

(** [links.new(a, b)]: the two sockets must have opposite directions; the
    host orders them output-to-input whatever the argument order, and an
    input socket keeps at most one link (the older one is removed). *)
Definition links_new (a b : Socket) : PyM NodeTree Link :=
  fun t =>
    if bool_decide (sock_dir a = sock_dir b) then
      (t, Raise (RuntimeError "Same input/output direction of sockets"))
    else
      let l := if bool_decide (sock_dir a = SOCK_OUT) then mkLink a b else mkLink b a in
      (mkTree (nt_nodes t)
              (List.filter (fun l0 => negb (bool_decide (link_to l0 = link_to l)))
                           (nt_links t) ++ [l]), Ok l).

(** ** The denoising filter *)

(** What the host's denoiser promises the add-on: a pixel function of the
    node's two settings that keeps the buffer length (the output has the
    resolution of the input). *)
Class Denoiser := {
  oidn : Prefilter -> bool -> list Z -> list Z;
  oidn_length : forall p h px, length (oidn p h px) = length px
}.

(** ** Rendering the compositor *)

Section Render.
Context `{Denoiser}.

(** The output socket linked into input socket [s], if any. *)
Definition link_source (t : NodeTree) (s : Socket) : option Socket :=
  link_from <$> find (fun l => bool_decide (link_to l = s)) (nt_links t).

(** The pixels an output socket carries, by a walk against the links. *)
Fixpoint eval_output (fuel : nat) (imgs : list Image) (t : NodeTree)
         (s : Socket) : option (list Z) :=
  match fuel with
  | O => None
  | S fuel' =>
      match nt_nodes t !! sock_node s with
      | None => None
      | Some nd =>
          match node_kind nd, sock_index s with
          | CompositorNodeImage, 0 =>
              nm ← node_image nd; img_pixels <$> image_lookup nm imgs
          | CompositorNodeDenoise, 0 =>
              src ← link_source t (mkSocket (sock_node s) SOCK_IN 0);
              oidn (node_prefilter nd) (node_use_hdr nd)
                <$> eval_output fuel' imgs t src
          | _, _ => None
          end
      end
  end.

(** The pixels reaching the first Viewer node's image input. *)
Definition viewer_output (imgs : list Image) (t : NodeTree) : option (list Z) :=
  '(i, _) ← list_find (fun nd => node_kind nd = CompositorNodeViewer) (nt_nodes t);
  src ← link_source t (mkSocket i SOCK_IN 0);
  eval_output (S (length (nt_nodes t))) imgs t src.

(** [bpy.ops.render.render(scene=n)]: render the named scene; with
    compositing on, the Viewer output is written to the Viewer image. *)
Definition render (n : string) : PyM BData unit :=
  fun d =>
    match find (scene_named n) (scenes d) with
    | None => (d, Raise (RuntimeError "Scene not found"))
    | Some sc =>
        match sc_use_nodes sc, sc_node_tree sc with
        | true, Some t =>
            match viewer_output (images d) t with
            | Some px => (mkData (scenes d) (write_viewer px (images d)), Ok tt)
            | None => (d, Ok tt)
            end
        | _, _ => (d, Ok tt)
        end
    end.
End Render.

(** ** Lemmas on the host operations *)

Section HostLemmas.
Implicit Types (d : BData) (imgs : list Image) (px : list Z).

Lemma find_true {A} (p : A -> bool) l x : find p l = Some x -> p x = true.
Proof. intros Hf. by apply find_some in Hf as [_ Hp]. Qed.

(** Scenes: updates that keep the names. *)
Definition keeps_name (f : Scene -> Scene) : Prop :=
  forall sc, sc_name (f sc) = sc_name sc.

Lemma scene_named_self n b t : scene_named n (mkScene n b t) = true.
Proof. unfold scene_named. by apply bool_decide_eq_true_2. Qed.

Lemma scene_named_keep f n sc : keeps_name f -> scene_named n (f sc) = scene_named n sc.
Proof. intros Hf. unfold scene_named. by rewrite Hf. Qed.

Lemma scenes_contains_update m n f d :
  keeps_name f -> scenes_contains m (scene_update n f d) = scenes_contains m d.
Proof.
  intros Hf. unfold scenes_contains, scene_update; simpl.
  induction (scenes d) as [|sc l IH]; [done|]. simpl. rewrite IH.
  destruct (scene_named n sc); [by rewrite scene_named_keep|done].
Qed.

Lemma find_scene_update n f d :
  keeps_name f ->
  find (scene_named n) (scenes (scene_update n f d)) = f <$> find (scene_named n) (scenes d).
Proof.
  intros Hf. unfold scene_update; simpl.
  rewrite find_map_same.
  - destruct (find _ _) as [sc|] eqn:E; [|done]. simpl.
    by rewrite (find_true _ _ _ E).
  - intros sc. destruct (scene_named n sc) eqn:E; [|done].
    by rewrite scene_named_keep.
Qed.

Lemma scene_update_ext n f f' d :
  (forall sc, scene_named n sc = true -> f sc = f' sc) ->
  scene_update n f d = scene_update n f' d.
Proof.
  intros Hf. unfold scene_update. f_equal. apply map_ext. intros sc.
  destruct (scene_named n sc) eqn:E; [by apply Hf|done].
Qed.

Lemma scene_update_compose n f g d :
  keeps_name f ->
  scene_update n g (scene_update n f d) = scene_update n (fun sc => g (f sc)) d.
Proof.
  intros Hf. unfold scene_update; simpl. f_equal. rewrite map_map.
  apply map_ext. intros sc. destruct (scene_named n sc) eqn:E; [|by rewrite E].
  by rewrite scene_named_keep, E.
Qed.

Lemma filter_unnamed_update n f d :
  keeps_name f ->
  List.filter (fun sc => negb (scene_named n sc)) (scenes (scene_update n f d)) =
  List.filter (fun sc => negb (scene_named n sc)) (scenes d).
Proof.
  intros Hf. unfold scene_update; simpl.
  induction (scenes d) as [|sc l IH]; [done|]. simpl.
  destruct (scene_named n sc) eqn:E; simpl.
  - by rewrite scene_named_keep, E.
  - by rewrite E, IH.
Qed.

(** [in_tree] runs the statement on the tree of the first scene of that
    name and stores the new tree in every scene of that name. *)
Definition store_tree (t : NodeTree) (sc : Scene) : Scene :=
  mkScene (sc_name sc) (sc_use_nodes sc) (Some t).

Lemma in_tree_run {A} n (c : PyM NodeTree A) d sc t t' r :
  find (scene_named n) (scenes d) = Some sc -> sc_node_tree sc = Some t ->
  c t = (t', r) ->
  in_tree n c d = (scene_update n (store_tree t') d, r).
Proof. intros Hf Ht Hc. unfold in_tree. by rewrite Hf, Ht, Hc. Qed.

(** Images. *)
Lemma image_named_with_pixels n px im : image_named n (with_pixels px im) = image_named n im.
Proof. done. Qed.

Lemma is_compositing_with_pixels px im : is_compositing (with_pixels px im) = is_compositing im.
Proof. done. Qed.

Lemma image_named_set n m px im : image_named m (set_named n px im) = image_named m im.
Proof. unfold set_named. by destruct (image_named n im). Qed.

Lemma is_compositing_set n px im : is_compositing (set_named n px im) = is_compositing im.
Proof. unfold set_named. by destruct (image_named n im). Qed.

Lemma image_lookup_set_named n m px imgs :
  image_lookup m (map (set_named n px) imgs) = set_named n px <$> image_lookup m imgs.
Proof. apply find_map_same. intros im. apply image_named_set. Qed.

Lemma find_compositing_set_named n px imgs :
  find is_compositing (map (set_named n px) imgs) = set_named n px <$> find is_compositing imgs.
Proof. apply find_map_same. intros im. apply is_compositing_set. Qed.

Lemma write_viewer_compositing px imgs :
  exists vi, find is_compositing (write_viewer px imgs) = Some vi /\ img_pixels vi = px.
Proof.
  induction imgs as [|im imgs IH]; [simpl; eauto|].
  cbn [write_viewer]. destruct (is_compositing im) eqn:E; cbn [find].
  - exists (with_pixels px im). by rewrite is_compositing_with_pixels, E.
  - by rewrite E.
Qed.

(** The image found under a name after the Viewer write is the one found
    before, possibly with the Viewer pixels. *)
Lemma write_viewer_lookup m px imgs im :
  image_lookup m imgs = Some im ->
  image_lookup m (write_viewer px imgs) = Some im \/
  image_lookup m (write_viewer px imgs) = Some (with_pixels px im).
Proof.
  unfold image_lookup. induction imgs as [|im0 imgs IH]; [done|]. simpl.
  destruct (is_compositing im0), (image_named m im0) eqn:E; simpl.
  - intros [= <-]. right. by rewrite image_named_with_pixels, E.
  - intros H. left. by rewrite image_named_with_pixels, E.
  - intros [= <-]. left. by rewrite E.
  - rewrite E. apply IH.
Qed.

Lemma write_viewer_lookup_plain m px imgs im :
  image_lookup m imgs = Some im -> is_compositing im = false ->
  image_lookup m (write_viewer px imgs) = Some im.
Proof.
  unfold image_lookup. induction imgs as [|im0 imgs IH]; [done|]. simpl.
  destruct (image_named m im0) eqn:E.
  - intros Hl Hc. injection Hl as Heq. subst im0. rewrite Hc. simpl. by rewrite E.
  - intros Hl Hc. destruct (is_compositing im0); simpl;
      rewrite ?image_named_with_pixels, E; [done|].
    by apply IH.
Qed.

Lemma set_pixels_run n px d im :
  image_lookup n (images d) = Some im -> length px = length (img_pixels im) ->
  set_pixels (PImage n) px d = (mkData (scenes d) (map (set_named n px) (images d)), Ok tt).
Proof. intros Hl Hlen. unfold set_pixels. rewrite Hl. by rewrite bool_decide_eq_true_2. Qed.

(** The names of the scenes, in order.  Every operation of the add-on but
    [scenes.new] and [scenes.remove] keeps them, on both of its exits, so it
    keeps every property of the names (presence of a name, number of scenes
    of a name). *)
Definition scene_names (d : BData) : list string := map sc_name (scenes d).

Definition keeps_names {A} (c : PyM BData A) : Prop :=
  forall d, scene_names (fst (c d)) = scene_names d.

Definition scene_present (n : string) (d : BData) : Prop := n ∈ scene_names d.

Lemma scene_present_contains n d : scene_present n d <-> scenes_contains n d = true.
Proof.
  unfold scene_present, scene_names, scenes_contains.
  rewrite list_elem_of_In, existsb_exists, in_map_iff. unfold scene_named.
  split.
  - intros (sc & <- & Hin). exists sc. split; [done|]. by apply bool_decide_eq_true_2.
  - intros (sc & Hin & Hn). exists sc. split; [|done]. by apply bool_decide_eq_true_1 in Hn.
Qed.

Lemma keeps_names_preserves {A} (P : list string -> Prop) (c : PyM BData A) :
  keeps_names c -> preserves (fun d => P (scene_names d)) c.
Proof.
  intros Hc d Hd. specialize (Hc d). destruct (c d) as [d' [a|e]]; simpl in Hc; by rewrite Hc.
Qed.

Lemma present_preserves {A} n (c : PyM BData A) :
  keeps_names c -> preserves (scene_present n) c.
Proof. exact (keeps_names_preserves (fun l => n ∈ l) c). Qed.

Lemma keeps_names_bind {A B} (c : PyM BData A) (k : A -> PyM BData B) :
  keeps_names c -> (forall a, keeps_names (k a)) -> keeps_names (x ← c; k x).
Proof.
  intros Hc Hk d. specialize (Hc d). unfold mbind, pym_bind.
  destruct (c d) as [d1 [a|e]]; simpl in *; [by rewrite Hk|done].
Qed.

Lemma keeps_names_ret {A} (a : A) : keeps_names (mret a).
Proof. done. Qed.

Lemma keeps_names_raise {A} e : keeps_names (A:=A) (raise e).
Proof. done. Qed.

Lemma keeps_names_gets {A} (f : BData -> A) : keeps_names (gets f).
Proof. done. Qed.

Lemma scene_update_names n f d : keeps_name f -> scene_names (scene_update n f d) = scene_names d.
Proof.
  intros Hf. unfold scene_names, scene_update; simpl. rewrite map_map.
  apply map_ext. intros sc. by destruct (scene_named n sc).
Qed.

Lemma keeps_name_store_tree t : keeps_name (store_tree t).
Proof. done. Qed.

Lemma set_use_nodes_names n b : keeps_names (set_use_nodes n b).
Proof. intros d. by apply scene_update_names. Qed.

Lemma in_tree_names {A} n (c : PyM NodeTree A) : keeps_names (in_tree n c).
Proof.
  intros d. unfold in_tree.
  destruct (find _ _) as [sc|]; [|done].
  destruct (sc_node_tree sc) as [t|]; [|done].
  destruct (c t) as [t' r]. by apply scene_update_names.
Qed.

Lemma set_pixels_names v px : keeps_names (set_pixels v px).
Proof.
  intros d. unfold set_pixels.
  destruct v as [n| |]; [|done|done].
  destruct (image_lookup n (images d)); [|done]. by case_bool_decide.
Qed.

Lemma scenes_get_names n : keeps_names (scenes_get n).
Proof. intros d. unfold scenes_get. by destruct (scenes_contains n d). Qed.

Lemma render_names `{Denoiser} n : keeps_names (render n).
Proof.
  intros d. unfold render.
  destruct (find _ _) as [sc|]; [|done].
  destruct (sc_use_nodes sc), (sc_node_tree sc) as [t|]; try done.
  by destruct (viewer_output (images d) t).
Qed.

Lemma contains_find n d :
  scenes_contains n d = true -> exists sc, find (scene_named n) (scenes d) = Some sc.
Proof.
  unfold scenes_contains. intros Hc.
  destruct (find (scene_named n) (scenes d)) as [sc|] eqn:E; [eauto|].
  apply find_none_existsb in E. congruence.
Qed.
(** The number of scenes of a name. *)
Definition scene_count (n : string) (d : BData) : nat :=
  length (List.filter (fun x => bool_decide (x = n)) (scene_names d)).

Lemma count_preserves {A} n k (c : PyM BData A) :
  keeps_names c -> preserves (fun d => scene_count n d <= k) c.
Proof.
  exact (keeps_names_preserves (fun l => length (List.filter (fun x => bool_decide (x = n)) l) <= k) c).
Qed.

(** [scenes.remove] of any name keeps a bound on the scenes of a name. *)
Lemma scenes_remove_count m n k : preserves (fun d => scene_count n d <= k) (scenes_remove m).
Proof.
  apply preserves_modify. intros d Hd. unfold scene_count, scene_names in *; simpl.
  etransitivity; [|exact Hd]. apply filter_map_filter_le.
Qed.
End HostLemmas.

#[export] Hint Resolve keeps_names_bind keeps_names_ret keeps_names_raise keeps_names_gets
  set_use_nodes_names in_tree_names set_pixels_names scenes_get_names render_names
  keeps_name_store_tree : pym.
