(* ===== verification/Operator.v ===== *)
(** * Operator: [IMAGE_OT_denoise] (lines 25-26, 51-132)

    The operator's properties, [poll], [invoke], and [execute] as the
    composition of the stages commented in the source: get the source image,
    create (or reuse) the temporary scene, set up the compositor, set the
    node parameters, render, copy the Viewer pixels back, remove the scene.
    [execute] runs in [PyM BData]: an exception leaves the host data as the
    statements before it made it.

    Theorems: [poll] is the truthiness of [context.edit_image]; the graph
    built is the same three-node chain for every previous tree; the normal
    path refines the contract [denoise_contract]; each error path raises the
    stated exception and leaves the temporary scene behind. *)

From S2P Require Import Prelude Host.

(** ** Data *)

Definition SCENE_NAME : string := "Image Denoise Scene".
Definition BL_IDNAME : string := "image.denoise".

(** The part of [bpy.context] the operator reads. *)
Record Ctx := mkCtx { edit_image : option string }.

(** The items of the [prefilter] EnumProperty: identifier, name,
    description. *)
Definition prefilter_items : list (string * string * string) :=
  [("NONE", "None", "No prefiltering");
   ("FAST", "Fast", "Denoise image and guiding passes together");
   ("ACCURATE", "Accurate", "Prefilter noisy guiding passes before denoising image")].

(** The operator instance [self]: its three properties.  [prefilter] holds
    the item, by the value of its identifier in the Denoise node's enum
    (the identifiers of [prefilter_items] are exactly that enum's). *)
Record IMAGE_OT_denoise := mkOp {
  image : string;
  prefilter : Prefilter;
  use_hdr : bool
}.

(** The property defaults: [image=""], [prefilter='ACCURATE'],
    [use_hdr=True]. *)
Definition op_defaults : IMAGE_OT_denoise := mkOp "" ACCURATE true.

(** The members of the set an operator returns. *)
Inductive OpStatus := FINISHED | CANCELLED | RUNNING_MODAL | PASS_THROUGH.

#[export] Instance OpStatus_eq_dec : EqDecision OpStatus.
Proof. solve_decision. Defined.

(** The positions of the three nodes [execute] creates. *)
Record CompNodes := mkCompNodes {
  image_node : nat;
  denoise_node : nat;
  viewer_node : nat
}.

(** ** [poll] *)

(** [getattr(context, 'edit_image', None)], taken for its truth value: an
    Image is true, [None] is false. *)
Definition poll (ctx : Ctx) : bool :=
  match edit_image ctx with Some _ => true | None => false end.

(** ** [execute], stage by stage *)

(** -- Get source image -- *)
Definition get_source_image (self : IMAGE_OT_denoise) (ctx : Ctx) : PyVal :=
  if bool_decide (image self <> "") then PStr (image self)
  else match edit_image ctx with Some n => PImage n | None => PNone end.

(** -- Create scene -- *)
Definition create_scene : PyM BData string :=
  gets (scenes_contains SCENE_NAME) ≫= fun present : bool =>
  if present then scenes_get SCENE_NAME else scenes_new SCENE_NAME.

(** -- Set up compositor --, from [nodes.clear()] on, inside the tree. *)
Definition build_graph : PyM NodeTree CompNodes :=
  nodes_clear;;
  image_n ← nodes_new CompositorNodeImage;
  denoise_n ← nodes_new CompositorNodeDenoise;
  viewer_n ← nodes_new CompositorNodeViewer;
  set_location image_n (-200, 0)%Z;;
  set_location denoise_n (0, 0)%Z;;
  set_location viewer_n (200, 0)%Z;;
  a ← node_input denoise_n 0; b ← node_output image_n 0;
  links_new a b;;
  a' ← node_input viewer_n 0; b' ← node_output denoise_n 0;
  links_new a' b';;
  mret (mkCompNodes image_n denoise_n viewer_n).

(** -- Set up compositor -- *)
Definition setup_compositor (scene : string) : PyM BData CompNodes :=
  set_use_nodes scene true;;
  in_tree scene build_graph.

(** -- Change node parameters -- *)
Definition set_node_params (self : IMAGE_OT_denoise) (source_image : PyVal)
           (ns : CompNodes) : PyM NodeTree unit :=
  set_image (image_node ns) source_image;;
  set_prefilter (denoise_node ns) (prefilter self);;
  set_use_hdr (denoise_node ns) (use_hdr self).

(** [next((img for img in bpy.data.images if img.type == 'COMPOSITING'), None)] *)
Definition find_compositing (imgs : list Image) : option Image :=
  find is_compositing imgs.

(** [source_image.pixels = viewer_image.pixels[:]]: the right-hand side is
    evaluated first, so a missing Viewer image raises before the source is
    touched. *)
Definition copy_back (source_image : PyVal) (viewer_image : option Image)
  : PyM BData unit :=
  match viewer_image with
  | None => raise (AttributeError "'NoneType' object has no attribute 'pixels'")
  | Some vi => set_pixels source_image (img_pixels vi)
  end.

Section Execute.
Context `{Denoiser}.

Definition execute (self : IMAGE_OT_denoise) (ctx : Ctx) : PyM BData OpStatus :=
  let source_image := get_source_image self ctx in
  scene ← create_scene;
  ns ← setup_compositor scene;
  in_tree scene (set_node_params self source_image ns);;
  render SCENE_NAME;;
  viewer_image ← gets (fun d => find_compositing (images d));
  copy_back source_image viewer_image;;
  scenes_remove scene;;
  mret FINISHED.
End Execute.

(** ** [invoke] *)

(** [wm.invoke_props_dialog(self)]: the window manager keeps the operator
    for the dialog (its state here is the open dialog, if any) and the call
    returns [{'RUNNING_MODAL'}]; confirming the dialog runs [execute] (see
    [Lifecycle]). *)
Definition invoke (self : IMAGE_OT_denoise) (ctx : Ctx)
  : PyM (option IMAGE_OT_denoise) OpStatus :=
  modify (fun _ => Some self);;
  mret RUNNING_MODAL.

(** A denoiser used to run examples: HDR keeps the samples, LDR clamps them
    to [0, 255]. *)
Definition clamp_denoiser : Denoiser := {|
  oidn := fun _ hdr px => if hdr then px else map (fun x => Z.max 0 (Z.min 255 x)) px;
  oidn_length := ltac:(intros p h px; destruct h; [done | apply length_map])
|}.

(** ** The graph [execute] builds *)

(** The three-node chain Image -> Denoise -> Viewer, with the node
    positions the code sets and the host's defaults for the rest. *)
Definition configured_chain (src : option string) (p : Prefilter) (h : bool) : NodeTree :=
  mkTree [mkNode CompositorNodeImage (-200, 0)%Z src ACCURATE true;
          mkNode CompositorNodeDenoise (0, 0)%Z None p h;
          mkNode CompositorNodeViewer (200, 0)%Z None ACCURATE true]
         [mkLink (mkSocket 0 SOCK_OUT 0) (mkSocket 1 SOCK_IN 0);
          mkLink (mkSocket 1 SOCK_OUT 0) (mkSocket 2 SOCK_IN 0)].

Definition denoise_chain : NodeTree := configured_chain None ACCURATE true.

Definition chain_nodes : CompNodes := mkCompNodes 0 1 2.

(** The scene list after [create_scene]. *)
Definition ensure_scene (d : BData) : BData :=
  if scenes_contains SCENE_NAME d then d
  else mkData (scenes d ++ [mkScene SCENE_NAME false None]) (images d).

Definition unnamed_scenes (n : string) (l : list Scene) : list Scene :=
  List.filter (fun sc => negb (scene_named n sc)) l.

(** ** Stage lemmas *)

Section Stages.
Implicit Types (d : BData).

Lemma create_scene_run d : create_scene d = (ensure_scene d, Ok SCENE_NAME).
Proof.
  unfold create_scene, ensure_scene, mbind, pym_bind, gets, scenes_get.
  by destruct (scenes_contains SCENE_NAME d) eqn:E; [rewrite E|].
Qed.

Lemma ensure_scene_present d : scenes_contains SCENE_NAME (ensure_scene d) = true.
Proof.
  unfold ensure_scene. destruct (scenes_contains SCENE_NAME d) eqn:E; [done|].
  unfold scenes_contains; simpl. rewrite existsb_app. simpl.
  by rewrite ?scene_named_self, orb_true_r.
Qed.

Lemma ensure_scene_unnamed d :
  unnamed_scenes SCENE_NAME (scenes (ensure_scene d)) = unnamed_scenes SCENE_NAME (scenes d).
Proof.
  unfold ensure_scene. destruct (scenes_contains SCENE_NAME d); [done|].
  unfold unnamed_scenes; simpl. rewrite List.filter_app. simpl.
  by rewrite ?scene_named_self, app_nil_r.
Qed.

Lemma ensure_scene_images d : images (ensure_scene d) = images d.
Proof. unfold ensure_scene. by destruct (scenes_contains SCENE_NAME d). Qed.

(** The graph is built from a cleared tree: the result does not depend on
    the tree the scene had. *)
Lemma build_graph_run t : build_graph t = (denoise_chain, Ok chain_nodes).
Proof. reflexivity. Qed.

Definition chain_scene (t : NodeTree) (sc : Scene) : Scene :=
  mkScene (sc_name sc) true (Some t).

Lemma setup_compositor_run d :
  scenes_contains SCENE_NAME d = true ->
  setup_compositor SCENE_NAME d =
    (scene_update SCENE_NAME (chain_scene denoise_chain) d, Ok chain_nodes).
Proof.
  intros Hc. destruct (contains_find _ _ Hc) as [sc Hf].
  unfold setup_compositor, set_use_nodes. autorewrite with pym_run.
  set (t0 := match sc_node_tree sc with Some t => t | None => default_compositor_tree end).
  erewrite (in_tree_run SCENE_NAME build_graph _ _ t0 denoise_chain (Ok chain_nodes)).
  - by rewrite scene_update_compose.
  - by rewrite find_scene_update, Hf.
  - subst t0. simpl. by destruct (sc_node_tree sc).
  - apply build_graph_run.
Qed.

Lemma set_node_params_image self n :
  set_node_params self (PImage n) chain_nodes denoise_chain =
    (configured_chain (Some n) (prefilter self) (use_hdr self), Ok tt).
Proof. reflexivity. Qed.

Lemma set_node_params_str self s t :
  set_node_params self (PStr s) chain_nodes t =
    (t, Raise (TypeError "bpy_struct: item.attr = val: CompositorNodeImage.image expected a Image type, not str")).
Proof. reflexivity. Qed.

(** With the scene's tree known, [in_tree] is a [scene_update]. *)
Lemma in_tree_chain {A} (c : PyM NodeTree A) t d t' r :
  scenes_contains SCENE_NAME d = true -> c t = (t', r) ->
  in_tree SCENE_NAME c (scene_update SCENE_NAME (chain_scene t) d) =
    (scene_update SCENE_NAME (chain_scene t') d, r).
Proof.
  intros Hc Hr. destruct (contains_find _ _ Hc) as [sc Hf].
  erewrite in_tree_run; [| by rewrite find_scene_update, Hf | done | exact Hr].
  by rewrite scene_update_compose.
Qed.
End Stages.

Section Render.
Context `{Denoiser}.

(** The compositor walk over the configured chain: the Viewer receives
    the denoised pixels of the image the Image node names. *)
Lemma viewer_output_chain imgs n p h :
  viewer_output imgs (configured_chain (Some n) p h) =
    oidn p h <$> (img_pixels <$> image_lookup n imgs).
Proof. unfold viewer_output. simpl. by destruct (image_lookup n imgs). Qed.

Lemma render_chain t d :
  scenes_contains SCENE_NAME d = true ->
  render SCENE_NAME (scene_update SCENE_NAME (chain_scene t) d) =
    (let d' := scene_update SCENE_NAME (chain_scene t) d in
     match viewer_output (images d) t with
     | Some px => (mkData (scenes d') (write_viewer px (images d)), Ok tt)
     | None => (d', Ok tt)
     end).
Proof.
  intros Hc. destruct (contains_find _ _ Hc) as [sc Hf].
  unfold render. rewrite find_scene_update, Hf by done. reflexivity.
Qed.

Lemma render_configured d n im p h :
  scenes_contains SCENE_NAME d = true -> image_lookup n (images d) = Some im ->
  let d' := scene_update SCENE_NAME (chain_scene (configured_chain (Some n) p h)) d in
  render SCENE_NAME d' =
    (mkData (scenes d') (write_viewer (oidn p h (img_pixels im)) (images d)), Ok tt).
Proof. intros Hc Hl d'. unfold d'. by rewrite render_chain, viewer_output_chain, Hl. Qed.
End Render.

(** ** The contract of a successful run *)

(** What a successful denoise promises, for the edited image [n] and the
    denoised pixels [px]: every scene named [SCENE_NAME] is gone and the
    other scenes are as before, [n] holds [px] (name and type kept), the
    Viewer image holds [px], and every other image that is not a Viewer
    image is unchanged. *)
Record denoise_contract (n : string) (im : Image) (px : list Z) (d d' : BData) : Prop := {
  dc_scenes : scenes d' = unnamed_scenes SCENE_NAME (scenes d);
  dc_source : image_lookup n (images d') = Some (with_pixels px im);
  dc_viewer : exists vi, find_compositing (images d') = Some vi /\ img_pixels vi = px;
  dc_others : forall m im0, m <> n -> image_lookup m (images d) = Some im0 ->
                is_compositing im0 = false -> image_lookup m (images d') = Some im0
}.

Section Contract.
Context `{Denoiser}.

Lemma write_viewer_source n im p h imgs :
  image_lookup n imgs = Some im ->
  let px := oidn p h (img_pixels im) in
  exists im', image_lookup n (write_viewer px imgs) = Some im' /\
    length px = length (img_pixels im') /\ with_pixels px im' = with_pixels px im.
Proof.
  intros Hl px. destruct (write_viewer_lookup n px _ _ Hl) as [Hw|Hw].
  - exists im. split_and!; [done| apply oidn_length | done].
  - exists (with_pixels px im). by split_and!.
Qed.

Lemma set_named_found n px im : image_named n im = true -> set_named n px im = with_pixels px im.
Proof. unfold set_named. by intros ->. Qed.

Lemma set_named_other n px im : image_named n im = false -> set_named n px im = im.
Proof. unfold set_named. by intros ->. Qed.

Lemma image_named_lookup m imgs im : image_lookup m imgs = Some im -> img_name im = m.
Proof. intros Hl. apply find_true in Hl. unfold image_named in Hl. by case_bool_decide. Qed.

(** The images after the Viewer write and the copy back satisfy the image
    part of the contract. *)
Lemma contract_images n im px imgs im' :
  image_lookup n imgs = Some im ->
  image_lookup n (write_viewer px imgs) = Some im' ->
  with_pixels px im' = with_pixels px im ->
  let imgs' := map (set_named n px) (write_viewer px imgs) in
  image_lookup n imgs' = Some (with_pixels px im) /\
  (exists vi, find_compositing imgs' = Some vi /\ img_pixels vi = px) /\
  (forall m im0, m <> n -> image_lookup m imgs = Some im0 ->
     is_compositing im0 = false -> image_lookup m imgs' = Some im0).
Proof.
  intros Hl Hw Hpx imgs'. split_and!.
  - unfold imgs'. rewrite image_lookup_set_named, Hw. simpl.
    rewrite set_named_found; [by rewrite Hpx | exact (find_true _ _ _ Hw)].
  - destruct (write_viewer_compositing px imgs) as [vi [Hvi Hvpx]].
    exists (set_named n px vi). unfold find_compositing, imgs'.
    rewrite find_compositing_set_named, Hvi. split; [done|].
    unfold set_named. by destruct (image_named n vi).
  - intros m im0 Hmn Hm Hc. unfold imgs'.
    rewrite image_lookup_set_named, (write_viewer_lookup_plain _ _ _ _ Hm Hc). simpl.
    rewrite set_named_other; [done|]. unfold image_named.
    apply bool_decide_eq_false_2. by rewrite (image_named_lookup _ _ _ Hm).
Qed.
End Contract.

(** ** Theorems of [execute] *)

Section ExecuteTheorems.
Context `{Denoiser}.

Lemma source_image_edit self ctx n :
  image self = "" -> edit_image ctx = Some n -> get_source_image self ctx = PImage n.
Proof.
  intros Hi Hc. unfold get_source_image. rewrite Hi, Hc.
  by rewrite bool_decide_eq_false_2 by (intros Hne; by apply Hne).
Qed.

(** The normal path of [execute], stage by stage. *)
Lemma execute_ok self ctx d n im :
  image self = "" -> edit_image ctx = Some n -> image_lookup n (images d) = Some im ->
  exists d', execute self ctx d = (d', Ok FINISHED) /\
    denoise_contract n im (oidn (prefilter self) (use_hdr self) (img_pixels im)) d d'.
Proof.
  intros Hi Hctx Hl.
  pose proof (source_image_edit _ _ _ Hi Hctx) as Hsrc.
  pose proof (ensure_scene_present d) as Hc.
  unfold execute. rewrite Hsrc, (pym_bind_ok _ _ _ _ _ (create_scene_run d)).
  cbv beta. rewrite (pym_bind_ok _ _ _ _ _ (setup_compositor_run _ Hc)).
  cbv beta. rewrite (pym_bind_ok _ _ _ _ _ (in_tree_chain _ _ _ _ _ Hc (set_node_params_image self n))).
  rewrite <- ensure_scene_images in Hl.
  rewrite (pym_bind_ok _ _ _ _ _ (render_configured _ _ _ _ _ Hc Hl)).
  rewrite ensure_scene_images in Hl |- *.
  destruct (write_viewer_compositing (oidn (prefilter self) (use_hdr self) (img_pixels im))
              (images d)) as [vi [Hvi Hvpx]].
  destruct (write_viewer_source n im (prefilter self) (use_hdr self) _ Hl)
    as [im' [Hw [Hlen Hpx]]].
  unfold mbind, pym_bind, gets; simpl.
  unfold find_compositing at 1. rewrite Hvi. simpl.
  rewrite Hvpx, Hw, bool_decide_eq_true_2 by exact Hlen. simpl.
  eexists; split; [reflexivity|].
  destruct (contract_images n im _ (images d) im' Hl Hw Hpx) as (Hsrc' & Hview & Hoth).
  split; simpl; [|done|done|done].
  pose proof (filter_unnamed_update SCENE_NAME
    (chain_scene (configured_chain (Some n) (prefilter self) (use_hdr self)))
    (ensure_scene d) (fun _ => eq_refl)) as Hf.
  simpl in Hf. rewrite Hf. apply ensure_scene_unnamed.
Qed.

(** C1. The normal path refines the contract: with the [image] property
    empty and an edited image [n] present in [bpy.data.images], [execute]
    returns FINISHED, [n] holds the denoised pixels, the temporary scene
    is removed (also when a scene of that name existed before) and the
    other scenes and images are kept. *)
Theorem execute_refines self ctx d n im :
  image self = "" -> edit_image ctx = Some n -> image_lookup n (images d) = Some im ->
  exists d', execute self ctx d = (d', Ok FINISHED) /\
    denoise_contract n im (oidn (prefilter self) (use_hdr self) (img_pixels im)) d d'.
Proof. exact (execute_ok self ctx d n im). Qed.
End ExecuteTheorems.

(** ** Every path: the temporary scene *)

Section Cleanup.
Context `{Denoiser}.

Lemma copy_back_names v vi : keeps_names (copy_back v vi).
Proof. destruct vi; [apply set_pixels_names | apply keeps_names_raise]. Qed.

Lemma setup_compositor_names n : keeps_names (setup_compositor n).
Proof. unfold setup_compositor. auto with pym. Qed.

#[local] Hint Resolve copy_back_names setup_compositor_names : pym.

Lemma scenes_remove_post n P :
  triple P (scenes_remove n) (fun _ d => scenes_contains n d = false) (fun _ _ => False).
Proof. intros d _. apply existsb_filter_neg. Qed.

(** C2. Whatever the operator's properties, context and host data, a run
    of [execute] that returns leaves no scene named [SCENE_NAME], and a
    run that raises leaves one behind. *)
Theorem execute_scene_cleanup self ctx :
  triple (fun _ => True) (execute self ctx)
    (fun _ d' => scenes_contains SCENE_NAME d' = false)
    (fun _ d' => scene_present SCENE_NAME d').
Proof.
  unfold execute.
  apply triple_bind_eq with (I := scene_present SCENE_NAME) (a0 := SCENE_NAME).
  { intros d _. rewrite create_scene_run.
    split; [done | apply scene_present_contains, ensure_scene_present]. }
  do 5 (apply triple_bind with (Q := fun _ => scene_present SCENE_NAME);
          [apply present_preserves; auto with pym | intros ?]).
  apply triple_bind with (Q := fun _ d => scenes_contains SCENE_NAME d = false).
  - eapply triple_weaken; [apply scenes_remove_post | done | done | done].
  - intros [] d Hd. exact Hd.
Qed.

(** C3. Setting the [image] property (as in the commented call
    [bpy.ops.image.denoise(image='noise.png')]) always fails: the string is
    assigned to [CompositorNodeImage.image], which raises [TypeError]; the
    temporary scene is left in [bpy.data.scenes] and no image changes. *)
Theorem execute_image_property_raises self ctx d :
  image self <> "" ->
  exists d', execute self ctx d =
    (d', Raise (TypeError "bpy_struct: item.attr = val: CompositorNodeImage.image expected a Image type, not str")) /\
    scenes_contains SCENE_NAME d' = true /\ images d' = images d.
Proof.
  intros Hi. pose proof (ensure_scene_present d) as Hc.
  assert (Hsrc : get_source_image self ctx = PStr (image self)).
  { unfold get_source_image. by rewrite bool_decide_eq_true_2. }
  unfold execute. rewrite Hsrc, (pym_bind_ok _ _ _ _ _ (create_scene_run d)).
  cbv beta. rewrite (pym_bind_ok _ _ _ _ _ (setup_compositor_run _ Hc)).
  cbv beta. rewrite (pym_bind_raise _ _ _ _ _
    (in_tree_chain _ _ _ _ _ Hc (set_node_params_str self (image self) denoise_chain))).
  eexists; split_and!; [reflexivity | | apply ensure_scene_images].
  by rewrite scenes_contains_update.
Qed.
End Cleanup.

(** C4. The compositor set-up does not depend on the tree the scene had
    (a tree left by an earlier failed run, or a user's tree): the nodes are
    cleared, and the result is the Image -> Denoise -> Viewer chain with the
    links Image.outputs[0] -> Denoise.inputs[0] and Denoise.outputs[0] ->
    Viewer.inputs[0]. *)
Theorem build_graph_chain (t : NodeTree) :
  build_graph t = (denoise_chain, Ok chain_nodes) /\
  nt_links denoise_chain =
    [mkLink (mkSocket (image_node chain_nodes) SOCK_OUT 0) (mkSocket (denoise_node chain_nodes) SOCK_IN 0);
     mkLink (mkSocket (denoise_node chain_nodes) SOCK_OUT 0) (mkSocket (viewer_node chain_nodes) SOCK_IN 0)].
Proof. split; [apply build_graph_run | reflexivity]. Qed.

(** ** Witnesses at concrete host states *)



Definition demo_image : Image := mkImage "noise.png" IMAGE [300; -5; 7]%Z.

(** A host where a scene named [SCENE_NAME] already exists (a user's scene,
    or one left by an earlier failed run). *)
Definition demo_data : BData :=
  mkData [mkScene "Scene" true None; mkScene SCENE_NAME true (Some default_compositor_tree)]
         [demo_image].

Definition demo_ctx : Ctx := mkCtx (Some "noise.png").
Definition demo_op : IMAGE_OT_denoise := mkOp "" FAST false.
Definition demo_op_named : IMAGE_OT_denoise := mkOp "noise.png" ACCURATE true.

Lemma execute_refines_witness :
  image demo_op = "" /\ edit_image demo_ctx = Some "noise.png" /\
  image_lookup "noise.png" (images demo_data) = Some demo_image /\
  exists d', @execute clamp_denoiser demo_op demo_ctx demo_data = (d', Ok FINISHED) /\
    denoise_contract "noise.png" demo_image [255; 0; 7]%Z demo_data d'.
Proof.
  split_and!; [reflexivity | reflexivity | reflexivity |].
  apply (@execute_refines clamp_denoiser demo_op demo_ctx demo_data "noise.png" demo_image);
    reflexivity.
Defined.

Lemma execute_scene_cleanup_witness :
  (match @execute clamp_denoiser demo_op demo_ctx demo_data with
   | (d', Ok _) => scenes_contains SCENE_NAME d' = false
   | (d', Raise _) => scene_present SCENE_NAME d'
   end) /\
  (match @execute clamp_denoiser demo_op_named demo_ctx demo_data with
   | (d', Ok _) => scenes_contains SCENE_NAME d' = false
   | (d', Raise _) => scene_present SCENE_NAME d'
   end).
Proof.
  split.
  - exact (@execute_scene_cleanup clamp_denoiser demo_op demo_ctx demo_data I).
  - exact (@execute_scene_cleanup clamp_denoiser demo_op_named demo_ctx demo_data I).
Defined.

Lemma execute_image_property_raises_witness :
  image demo_op_named <> "" /\
  exists d', @execute clamp_denoiser demo_op_named demo_ctx demo_data =
    (d', Raise (TypeError "bpy_struct: item.attr = val: CompositorNodeImage.image expected a Image type, not str")) /\
    scenes_contains SCENE_NAME d' = true /\ images d' = images demo_data.
Proof.
  split; [discriminate|].
  apply (@execute_image_property_raises clamp_denoiser). discriminate.
Defined.

