(* ===== verification/Props.v ===== *)
(** * Props: the operator's properties from keyword arguments

    [bpy.ops.image.denoise(image='noise.png')] (line 168) creates an operator
    instance from the property declarations of lines 57-70 and the keyword
    arguments: the host walks the declared properties in order, sets each one
    given as a keyword (raising [TypeError] on a value of the wrong type or
    an enum identifier that is not an item), keeps the default of the
    others, and afterwards rejects a keyword that names no property.

    Theorem: the keyword arguments of an instance give that instance back
    (the round trip behind the dialog and the call paths of [Lifecycle]):
    the declared names, types and enum items accept every instance. *)

From S2P Require Import Prelude Host Operator.

(** ** Keyword arguments *)

(** The Python literals a caller passes. *)
Inductive PyLit := LStr (s : string) | LBool (b : bool) | LInt (z : Z).

(** A keyword dictionary: Python keeps one value per keyword. *)
Definition Kwargs := list (string * PyLit).

Definition kw_lookup (k : string) (kws : Kwargs) : option PyLit :=
  snd <$> find (fun kv => bool_decide (kv.1 = k)) kws.

(** The declared properties, in declaration order (lines 57, 59, 67). *)
Definition op_props : list string := ["image"; "prefilter"; "use_hdr"].

Definition enum_identifiers (items : list (string * string * string)) : list string :=
  map (fun it => it.1.1) items.

(** Setting one declared property from a literal. *)
Definition set_prop (k : string) (v : PyLit) (self : IMAGE_OT_denoise)
  : outcome IMAGE_OT_denoise :=
  if bool_decide (k = "image") then
    match v with
    | LStr s => Ok (mkOp s (prefilter self) (use_hdr self))
    | _ => Raise (TypeError "IMAGE_OT_denoise.image expected a string type")
    end
  else if bool_decide (k = "prefilter") then
    match v with
    | LStr s =>
        if bool_decide (s ∈ enum_identifiers prefilter_items) then
          match prefilter_of_identifier s with
          | Some p => Ok (mkOp (image self) p (use_hdr self))
          | None => Raise (TypeError ("enum " ++ s ++ " not found"))
          end
        else Raise (TypeError ("enum " ++ s ++ " not found in ('NONE', 'FAST', 'ACCURATE')"))
    | _ => Raise (TypeError "IMAGE_OT_denoise.prefilter expected a string enum")
    end
  else if bool_decide (k = "use_hdr") then
    match v with
    | LBool b => Ok (mkOp (image self) (prefilter self) b)
    | LInt 0 => Ok (mkOp (image self) (prefilter self) false)
    | LInt 1 => Ok (mkOp (image self) (prefilter self) true)
    | _ => Raise (TypeError "IMAGE_OT_denoise.use_hdr expected True/False or 0/1")
    end
  else Ok self.

(** The walk over the declared properties. *)
Fixpoint fill_props (self : IMAGE_OT_denoise) (ps : list string) (kws : Kwargs)
  : outcome IMAGE_OT_denoise :=
  match ps with
  | [] => Ok self
  | p :: ps' =>
      match kw_lookup p kws with
      | None => fill_props self ps' kws
      | Some v =>
          match set_prop p v self with
          | Ok self' => fill_props self' ps' kws
          | Raise e => Raise e
          end
      end
  end.

(** The operator instance of a call with keywords [kws]. *)
Definition props_of_kwargs (kws : Kwargs) : outcome IMAGE_OT_denoise :=
  match fill_props op_defaults op_props kws with
  | Raise e => Raise e
  | Ok self =>
      match find (fun kv => bool_decide (kv.1 ∉ op_props)) kws with
      | Some (k, _) =>
          Raise (TypeError ("Converting py args to operator properties: keyword " ++ k ++ " unrecognized"))
      | None => Ok self
      end
  end.

(** The keywords that reproduce an instance. *)
Definition kwargs_of (self : IMAGE_OT_denoise) : Kwargs :=
  [("image", LStr (image self));
   ("prefilter", LStr (prefilter_identifier (prefilter self)));
   ("use_hdr", LBool (use_hdr self))].

(** ** Lemmas *)

Lemma fill_props_kwargs_of self0 self :
  fill_props self0 op_props (kwargs_of self) = Ok self.
Proof. destruct self as [i [] h]; reflexivity. Qed.

(** C15. The keyword arguments of any operator instance make the host
    build exactly that instance: [props_of_kwargs] inverts [kwargs_of]. *)
Theorem props_of_kwargs_roundtrip self : props_of_kwargs (kwargs_of self) = Ok self.
Proof. unfold props_of_kwargs. by rewrite fill_props_kwargs_of. Qed.

