(* ===== verification/Registry.v ===== *)
(** * Registry: the menus and [register]/[unregister] (lines 30-47, 136-163)

    The host side: [bpy.types] as a map from [bl_idname] to the registered
    class, [register_class]/[unregister_class] (by class identity), the
    [draw] attribute of menu classes (a Python class attribute that
    [register] overwrites), and the draw functions appended to the host menu
    [IMAGE_MT_image].  The add-on side: the class bodies, [menu_func],
    [new_draw_method] (a closure over the draw method it replaces and over
    the module's [BL_IDNAME]), [register] and [unregister].

    An add-on instance is a loaded copy of the module: reloading the add-on
    creates new class objects, and template-derived add-ons carry their own
    [BL_IDNAME] and operator class, while all of them name their menu class
    [IMAGE_MT_filters].  This is what makes the menu shared. *)

From S2P Require Import Prelude Host Operator.

(** ** Data *)

(** A loaded add-on module: its identity, its [BL_IDNAME] (line 26, used by
    the menus), and its operator class's [bl_idname] and name (lines 52-53,
    used for registration). *)
Record AddonModule := mkModule {
  mod_id : nat;
  mod_BL_IDNAME : string;
  mod_op_bl_idname : string;
  mod_op_class : string
}.

(** This repository's module, loaded as instance [k]. *)
Definition this_module (k : nat) : AddonModule :=
  mkModule k BL_IDNAME "image.denoise" "IMAGE_OT_denoise".

(** Draw methods: the class body of [IMAGE_MT_filters.draw] (lines 35-38)
    and the closure [new_draw_method] (lines 151-156) over the original
    draw method it captured and the module's [BL_IDNAME]. *)
Inductive DrawFn :=
  | DFilters (idname : string)
  | DWrapped (original_draw_method : DrawFn) (idname : string).

#[export] Instance DrawFn_eq_dec : EqDecision DrawFn.
Proof. solve_decision. Defined.

Inductive ClassKind := KOperator | KMenu.

#[export] Instance ClassKind_eq_dec : EqDecision ClassKind.
Proof. solve_decision. Defined.

(** A class object: the module that defined it, its name, its [bl_idname],
    its kind and the [draw] method of its body. *)
Record PyClass := mkClass {
  cls_module : nat;
  cls_name : string;
  cls_idname : string;
  cls_kind : ClassKind;
  cls_draw : option DrawFn
}.

#[export] Instance PyClass_eq_dec : EqDecision PyClass.
Proof. solve_decision. Defined.

Definition cls_key (c : PyClass) : nat * string := (cls_module c, cls_name c).

(** [class IMAGE_OT_denoise(bpy.types.Operator)] of module [m]. *)
Definition op_class (m : AddonModule) : PyClass :=
  mkClass (mod_id m) (mod_op_class m) (mod_op_bl_idname m) KOperator None.

(** [class IMAGE_MT_filters(bpy.types.Menu)] of module [m]. *)
Definition IMAGE_MT_filters (m : AddonModule) : PyClass :=
  mkClass (mod_id m) "IMAGE_MT_filters" "IMAGE_MT_filters" KMenu
          (Some (DFilters (mod_BL_IDNAME m))).

(** Functions appended to [IMAGE_MT_image]: [menu_func] of a module. *)
Inductive Hook := HMenuFunc (module : nat).

#[export] Instance Hook_eq_dec : EqDecision Hook.
Proof. solve_decision. Defined.

(** The registry part of the host. *)
Record Registry := mkReg {
  reg_types : gmap string PyClass;              (* bpy.types, by bl_idname *)
  reg_draw : gmap (nat * string) DrawFn;        (* draw attributes set after definition *)
  reg_image_menu : list Hook                    (* IMAGE_MT_image's appended functions *)
}.

Definition empty_registry : Registry := mkReg ∅ ∅ [].

(** Items a menu draws. *)
Inductive Item :=
  | ISeparator
  | IMenu (name : string)
  | IOperator (idname : string)
  | IUnknownOperator (idname : string).   (* a disabled entry for an unknown idname *)

#[export] Instance Item_eq_dec : EqDecision Item.
Proof. solve_decision. Defined.

(** ** Host operations *)

(** [bpy.utils.register_class(c)]: a class already registered (the same
    class object) is refused; a class with the [bl_idname] of another one
    replaces it. *)
Definition register_class (c : PyClass) : PyM Registry unit :=
  fun r =>
    if bool_decide (reg_types r !! cls_idname c = Some c) then
      (r, Raise (ValueError "register_class(...): already registered as a subclass"))
    else
      (mkReg (<[cls_idname c := c]> (reg_types r)) (reg_draw r) (reg_image_menu r), Ok tt).

(** [bpy.utils.unregister_class(c)] *)
Definition unregister_class (c : PyClass) : PyM Registry unit :=
  fun r =>
    if bool_decide (reg_types r !! cls_idname c = Some c) then
      (mkReg (delete (cls_idname c) (reg_types r)) (reg_draw r) (reg_image_menu r), Ok tt)
    else
      (r, Raise (RuntimeError "unregister_class(...): missing bl_rna attribute (may not be registered)")).

(** The current [draw] attribute of a class. *)
Definition draw_of (r : Registry) (c : PyClass) : option DrawFn :=
  match reg_draw r !! cls_key c with
  | Some f => Some f
  | None => cls_draw c
  end.

(** [cls.draw = f] *)
Definition set_draw (c : PyClass) (f : DrawFn) : PyM Registry unit :=
  modify (fun r => mkReg (reg_types r) (<[cls_key c := f]> (reg_draw r)) (reg_image_menu r)).

(** [bpy.types.IMAGE_MT_image.append(f)] *)
Definition image_menu_append (h : Hook) : PyM Registry unit :=
  modify (fun r => mkReg (reg_types r) (reg_draw r) (reg_image_menu r ++ [h])).

(** [layout.operator(idname)]: an idname no registered operator has is
    drawn as a disabled entry. *)
Definition layout_operator (r : Registry) (idname : string) : Item :=
  match reg_types r !! idname with
  | Some c => if bool_decide (cls_kind c = KOperator) then IOperator idname
              else IUnknownOperator idname
  | None => IUnknownOperator idname
  end.

(** ** The add-on's draw code *)

(** [IMAGE_MT_filters.draw] and [new_draw_method]: the original draw first,
    then the module's operator. *)
Fixpoint run_draw (r : Registry) (f : DrawFn) : list Item :=
  match f with
  | DFilters idname => [layout_operator r idname]
  | DWrapped original idname => run_draw r original ++ [layout_operator r idname]
  end.

(** [menu_func]: a separator and the Filters submenu, when an image is
    edited. *)
Definition menu_func (ctx : Ctx) : list Item :=
  match edit_image ctx with
  | Some _ => [ISeparator; IMenu "IMAGE_MT_filters"]
  | None => []
  end.

(** The items the add-ons contribute to the Image menu. *)
Definition draw_image_menu (r : Registry) (ctx : Ctx) : list Item :=
  concat (map (fun _ => menu_func ctx) (reg_image_menu r)).

(** The Filters submenu, drawn by the class registered under that name. *)
Definition draw_filters_menu (r : Registry) : list Item :=
  match reg_types r !! "IMAGE_MT_filters" with
  | Some c => match draw_of r c with Some f => run_draw r f | None => [] end
  | None => []
  end.

(** ** [register] and [unregister] *)

(** -- Append/update filters menu -- (lines 140-159) *)
Definition update_filters_menu (m : AddonModule) : PyM Registry unit :=
  img_filters_menu ← gets (fun r => reg_types r !! "IMAGE_MT_filters");
  match img_filters_menu with
  | None =>
      register_class (IMAGE_MT_filters m);;
      image_menu_append (HMenuFunc (mod_id m))
  | Some c =>
      original_draw_method ← gets (fun r => draw_of r c);
      match original_draw_method with
      | Some f => set_draw c (DWrapped f (mod_BL_IDNAME m))
      | None => raise (AttributeError "type object 'IMAGE_MT_filters' has no attribute 'draw'")
      end
  end.

Definition register (m : AddonModule) : PyM Registry unit :=
  register_class (op_class m);;
  update_filters_menu m.

Definition unregister (m : AddonModule) : PyM Registry unit :=
  unregister_class (op_class m).

(** ** Lemmas *)

(** A module whose menus name its own operator, and whose operator does not
    take the Filters menu's idname. *)
Definition wf_module (m : AddonModule) : Prop :=
  mod_BL_IDNAME m = mod_op_bl_idname m /\ mod_op_bl_idname m <> "IMAGE_MT_filters".

Section RegistryLemmas.
Implicit Types (r : Registry) (m : AddonModule).

Lemma register_class_run c r :
  reg_types r !! cls_idname c <> Some c ->
  register_class c r =
    (mkReg (<[cls_idname c := c]> (reg_types r)) (reg_draw r) (reg_image_menu r), Ok tt).
Proof. intros H. unfold register_class. by rewrite bool_decide_eq_false_2. Qed.

Lemma register_class_raise c r :
  reg_types r !! cls_idname c = Some c ->
  register_class c r = (r, Raise (ValueError "register_class(...): already registered as a subclass")).
Proof. intros H. unfold register_class. by rewrite bool_decide_eq_true_2. Qed.

Lemma unregister_class_run c r :
  reg_types r !! cls_idname c = Some c ->
  unregister_class c r =
    (mkReg (delete (cls_idname c) (reg_types r)) (reg_draw r) (reg_image_menu r), Ok tt).
Proof. intros H. unfold unregister_class. by rewrite bool_decide_eq_true_2. Qed.

Lemma layout_operator_registered r m :
  reg_types r !! mod_op_bl_idname m = Some (op_class m) ->
  layout_operator r (mod_op_bl_idname m) = IOperator (mod_op_bl_idname m).
Proof. intros H. unfold layout_operator. by rewrite H. Qed.

Lemma layout_operator_absent r x :
  reg_types r !! x = None -> layout_operator r x = IUnknownOperator x.
Proof. intros H. unfold layout_operator. by rewrite H. Qed.

(** The result of [register] on its two branches. *)
Definition reg_after_op r m : Registry :=
  mkReg (<[mod_op_bl_idname m := op_class m]> (reg_types r)) (reg_draw r) (reg_image_menu r).

Lemma register_new_menu_run r m :
  mod_op_bl_idname m <> "IMAGE_MT_filters" ->
  reg_types r !! mod_op_bl_idname m <> Some (op_class m) ->
  reg_types r !! "IMAGE_MT_filters" = None ->
  register m r =
    (mkReg (<["IMAGE_MT_filters" := IMAGE_MT_filters m]>
              (<[mod_op_bl_idname m := op_class m]> (reg_types r)))
           (reg_draw r) (reg_image_menu r ++ [HMenuFunc (mod_id m)]), Ok tt).
Proof.
  intros Hne Hop Hmenu. unfold register.
  rewrite (pym_bind_ok _ _ _ _ _ (register_class_run (op_class m) r Hop)).
  unfold update_filters_menu. autorewrite with pym_run. simpl.
  rewrite lookup_insert_ne by done. rewrite Hmenu.
  assert (Hm' : reg_types (reg_after_op r m) !! cls_idname (IMAGE_MT_filters m)
                <> Some (IMAGE_MT_filters m)).
  { simpl. rewrite lookup_insert_ne by done. by rewrite Hmenu. }
  by rewrite (pym_bind_ok _ _ _ _ _ (register_class_run _ _ Hm')).
Qed.

Lemma register_wrap_run r m c f :
  mod_op_bl_idname m <> "IMAGE_MT_filters" ->
  reg_types r !! mod_op_bl_idname m <> Some (op_class m) ->
  reg_types r !! "IMAGE_MT_filters" = Some c ->
  draw_of r c = Some f ->
  register m r =
    (mkReg (<[mod_op_bl_idname m := op_class m]> (reg_types r))
           (<[cls_key c := DWrapped f (mod_BL_IDNAME m)]> (reg_draw r))
           (reg_image_menu r), Ok tt).
Proof.
  intros Hne Hop Hmenu Hf. unfold register.
  rewrite (pym_bind_ok _ _ _ _ _ (register_class_run (op_class m) r Hop)).
  unfold update_filters_menu. autorewrite with pym_run. simpl.
  rewrite lookup_insert_ne by done. rewrite Hmenu. autorewrite with pym_run.
  unfold draw_of in *; simpl. by rewrite Hf.
Qed.
End RegistryLemmas.

(** The draw method after the add-ons [ms] wrapped [f], in order. *)
Definition wrap_all (f : DrawFn) (ms : list AddonModule) : DrawFn :=
  fold_left (fun g m => DWrapped g (mod_BL_IDNAME m)) ms f.

Section DrawLemmas.
Implicit Types (r : Registry) (m : AddonModule).

Lemma run_draw_wrap_all r f ms :
  run_draw r (wrap_all f ms) =
    run_draw r f ++ map (fun m => layout_operator r (mod_BL_IDNAME m)) ms.
Proof.
  unfold wrap_all. revert f. induction ms as [|m ms IH]; intros f; simpl.
  - by rewrite app_nil_r.
  - rewrite IH. simpl. by rewrite <- app_assoc.
Qed.

Lemma layout_operators_registered r ms :
  Forall wf_module ms ->
  Forall (fun m => reg_types r !! mod_op_bl_idname m = Some (op_class m)) ms ->
  map (fun m => layout_operator r (mod_BL_IDNAME m)) ms =
    map (fun m => IOperator (mod_BL_IDNAME m)) ms.
Proof.
  intros Hwf Hreg. apply map_ext_Forall.
  assert (Hboth : Forall (fun m => wf_module m /\ reg_types r !! mod_op_bl_idname m = Some (op_class m)) ms)
    by (apply Forall_and; by split).
  eapply Forall_impl; [exact Hboth|]. intros m [[Hid _] Hr].
  rewrite Hid. by apply layout_operator_registered.
Qed.
End DrawLemmas.

(** ** Theorems of [register] and [unregister] *)

Section RegisterTheorems.
Implicit Types (r : Registry) (m : AddonModule).

(** The Filters menu right after the first add-on registered it. *)
Lemma draw_filters_fresh r m :
  mod_op_bl_idname m <> "IMAGE_MT_filters" ->
  reg_draw r !! (mod_id m, "IMAGE_MT_filters") = None ->
  draw_filters_menu
    (mkReg (<["IMAGE_MT_filters" := IMAGE_MT_filters m]>
              (<[mod_op_bl_idname m := op_class m]> (reg_types r)))
           (reg_draw r) (reg_image_menu r ++ [HMenuFunc (mod_id m)])) =
    [layout_operator (mkReg (<["IMAGE_MT_filters" := IMAGE_MT_filters m]>
              (<[mod_op_bl_idname m := op_class m]> (reg_types r))) (reg_draw r) [])
                     (mod_BL_IDNAME m)].
Proof.
  intros Hne Hd. unfold draw_filters_menu, draw_of. simpl.
  rewrite lookup_insert_eq. unfold cls_key; simpl. rewrite Hd. simpl.
  by unfold layout_operator.
Qed.

(** C5. [register] on a host where no Filters menu is registered: it
    registers the operator and this module's [IMAGE_MT_filters], appends
    [menu_func] to the Image menu once, and the Filters menu lists the
    operator. *)
Theorem register_fresh r m :
  wf_module m ->
  reg_types r !! mod_op_bl_idname m <> Some (op_class m) ->
  reg_types r !! "IMAGE_MT_filters" = None ->
  reg_draw r !! (mod_id m, "IMAGE_MT_filters") = None ->
  exists r', register m r = (r', Ok tt) /\
    reg_types r' !! mod_op_bl_idname m = Some (op_class m) /\
    reg_image_menu r' = reg_image_menu r ++ [HMenuFunc (mod_id m)] /\
    draw_filters_menu r' = [IOperator (mod_BL_IDNAME m)].
Proof.
  intros [Hid Hne] Hop Hmenu Hd.
  rewrite (register_new_menu_run r m Hne Hop Hmenu).
  eexists; split_and!; [reflexivity | | reflexivity |].
  - simpl. rewrite lookup_insert_ne by done. apply lookup_insert_eq.
  - rewrite draw_filters_fresh by done. rewrite Hid. unfold layout_operator. simpl.
    rewrite lookup_insert_ne by done. by rewrite lookup_insert_eq.
Qed.

(** C9. Registering a module whose operator class is registered already
    raises [ValueError] before any change. *)
Theorem register_twice_raises r m :
  reg_types r !! mod_op_bl_idname m = Some (op_class m) ->
  register m r = (r, Raise (ValueError "register_class(...): already registered as a subclass")).
Proof.
  intros Hop. unfold register. apply pym_bind_raise. by apply (register_class_raise (op_class m)).
Qed.

(** C7. [unregister] removes only the operator: after [register] and
    [unregister] on a host without a Filters menu, the Filters menu and the
    [menu_func] hook stay, and the menu shows the operator's idname as an
    unknown (disabled) entry. *)
Theorem unregister_leaves_stale_entry r m :
  wf_module m ->
  reg_types r !! mod_op_bl_idname m = None ->
  reg_types r !! "IMAGE_MT_filters" = None ->
  reg_draw r !! (mod_id m, "IMAGE_MT_filters") = None ->
  exists r1 r2, register m r = (r1, Ok tt) /\ unregister m r1 = (r2, Ok tt) /\
    reg_types r2 !! "IMAGE_MT_filters" = Some (IMAGE_MT_filters m) /\
    reg_image_menu r2 = reg_image_menu r ++ [HMenuFunc (mod_id m)] /\
    draw_filters_menu r2 = [IUnknownOperator (mod_BL_IDNAME m)].
Proof.
  intros [Hid Hne] Hop Hmenu Hd.
  rewrite (register_new_menu_run r m Hne) by (by rewrite Hop || done).
  do 2 eexists. split; [reflexivity|].
  unfold unregister. rewrite unregister_class_run; simpl;
    [| by rewrite lookup_insert_ne, lookup_insert_eq].
  split_and!; [reflexivity | | reflexivity |].
  - simpl. rewrite lookup_delete_ne by done. by rewrite lookup_insert_eq.
  - unfold draw_filters_menu, draw_of; simpl.
    rewrite lookup_delete_ne, lookup_insert_eq by done. unfold cls_key; simpl.
    rewrite Hd. simpl. unfold layout_operator; simpl.
    by rewrite Hid, lookup_delete_eq.
Qed.

(** C10. [BL_IDNAME] (line 26, marked to be updated) and the operator's
    [bl_idname] (line 53, not marked) are separate literals.  A derived
    add-on that updates only the marked one gets a Filters entry for an
    idname no operator has: the entry is drawn disabled. *)
Theorem mismatched_idname_entry r m :
  mod_op_bl_idname m <> "IMAGE_MT_filters" ->
  mod_BL_IDNAME m <> mod_op_bl_idname m ->
  mod_BL_IDNAME m <> "IMAGE_MT_filters" ->
  reg_types r !! mod_BL_IDNAME m = None ->
  reg_types r !! mod_op_bl_idname m <> Some (op_class m) ->
  reg_types r !! "IMAGE_MT_filters" = None ->
  reg_draw r !! (mod_id m, "IMAGE_MT_filters") = None ->
  exists r', register m r = (r', Ok tt) /\
    draw_filters_menu r' = [IUnknownOperator (mod_BL_IDNAME m)].
Proof.
  intros Hne Hmis Hbl Habs Hop Hmenu Hd.
  rewrite (register_new_menu_run r m Hne Hop Hmenu).
  eexists; split; [reflexivity|].
  rewrite draw_filters_fresh by done. unfold layout_operator; simpl.
  by rewrite !lookup_insert_ne, Habs by done.
Qed.
End RegisterTheorems.

(** ** Several template-derived add-ons *)

(** Enabling the add-ons [ms] one after the other. *)
Fixpoint register_all (ms : list AddonModule) : PyM Registry unit :=
  match ms with
  | [] => mret tt
  | m :: ms' => register m;; register_all ms'
  end.

(** The registry once [m0] registered the Filters menu and the add-ons [ms]
    wrapped its draw method. *)
Definition menu_inv (r : Registry) (m0 : AddonModule) (ms : list AddonModule) : Prop :=
  reg_types r !! "IMAGE_MT_filters" = Some (IMAGE_MT_filters m0) /\
  draw_of r (IMAGE_MT_filters m0) = Some (wrap_all (DFilters (mod_BL_IDNAME m0)) ms) /\
  reg_image_menu r = [HMenuFunc (mod_id m0)] /\
  (forall x c, reg_types r !! x = Some c ->
     x = "IMAGE_MT_filters" \/ x ∈ map mod_op_bl_idname (m0 :: ms)) /\
  Forall (fun m => reg_types r !! mod_op_bl_idname m = Some (op_class m)) (m0 :: ms).

Section SharedMenu.
Implicit Types (r : Registry) (m : AddonModule).

Lemma menu_inv_first m0 :
  wf_module m0 ->
  exists r, register m0 empty_registry = (r, Ok tt) /\ menu_inv r m0 [].
Proof.
  intros [Hid Hne].
  rewrite (register_new_menu_run empty_registry m0 Hne) by done.
  eexists; split; [reflexivity|]. unfold menu_inv, draw_of; simpl.
  split_and!; [by rewrite lookup_insert_eq | done | done | |].
  - intros x c. rewrite !lookup_insert_Some, lookup_empty. set_solver.
  - constructor; [|done]. by rewrite lookup_insert_ne, lookup_insert_eq.
Qed.

Lemma menu_inv_step r m0 ms m :
  menu_inv r m0 ms -> wf_module m ->
  mod_op_bl_idname m ∉ map mod_op_bl_idname (m0 :: ms) ->
  exists r', register m r = (r', Ok tt) /\ menu_inv r' m0 (ms ++ [m]).
Proof.
  intros (Hmenu & Hdraw & Hhooks & Hkeys & Hops) [Hid Hne] Hfresh.
  assert (Hop : reg_types r !! mod_op_bl_idname m <> Some (op_class m)).
  { intros Hs. destruct (Hkeys _ _ Hs); contradiction. }
  rewrite (register_wrap_run r m _ _ Hne Hop Hmenu Hdraw).
  eexists; split; [reflexivity|]. unfold menu_inv, draw_of; simpl.
  split_and!.
  - by rewrite lookup_insert_ne.
  - rewrite lookup_insert_eq. unfold wrap_all. by rewrite fold_left_app.
  - done.
  - intros x c. rewrite lookup_insert_Some. intros [[<- _]|[_ Hx]].
    + right. rewrite map_app. set_solver.
    + destruct (Hkeys _ _ Hx) as [?|Hin]; [by left|]. right. rewrite map_app. set_solver.
  - rewrite app_comm_cons. apply Forall_app; split.
    + rewrite Forall_forall in Hops |- *. intros m' Hin'.
      rewrite lookup_insert_ne; [by apply Hops|]. intros Heq.
      apply Hfresh. rewrite Heq. apply list_elem_of_In, in_map, list_elem_of_In. exact Hin'.
    + constructor; [by rewrite lookup_insert_eq | done].
Qed.

Lemma register_all_inv rest : forall r m0 ms,
  menu_inv r m0 ms -> Forall wf_module rest ->
  NoDup (map mod_op_bl_idname (m0 :: ms ++ rest)) ->
  exists r', register_all rest r = (r', Ok tt) /\ menu_inv r' m0 (ms ++ rest).
Proof.
  induction rest as [|m rest IH]; intros r m0 ms Hinv Hwf Hnd.
  - exists r. by rewrite app_nil_r.
  - inversion Hwf as [|? ? Hm Hrest]; subst.
    assert (Hfresh : mod_op_bl_idname m ∉ map mod_op_bl_idname (m0 :: ms)).
    { simpl in Hnd. rewrite map_app in Hnd. simpl in Hnd.
      rewrite app_comm_cons in Hnd.
      apply NoDup_app in Hnd as (_ & Hdis & _). intros Hin.
      apply (Hdis _ Hin). set_solver. }
    destruct (menu_inv_step r m0 ms m Hinv Hm Hfresh) as [r1 [Hr1 Hinv1]].
    destruct (IH r1 m0 (ms ++ [m]) Hinv1 Hrest) as [r' [Hr' Hinv']].
    { by rewrite <- app_assoc. }
    exists r'. simpl. rewrite (pym_bind_ok _ _ _ _ _ Hr1), Hr'.
    by rewrite <- app_assoc in Hinv'.
Qed.

Lemma menu_inv_draw r m0 ms :
  menu_inv r m0 ms -> Forall wf_module (m0 :: ms) ->
  draw_filters_menu r = map (fun m => IOperator (mod_BL_IDNAME m)) (m0 :: ms).
Proof.
  intros (Hmenu & Hdraw & _ & _ & Hops) Hwf.
  unfold draw_filters_menu. rewrite Hmenu, Hdraw, run_draw_wrap_all.
  rewrite <- (layout_operators_registered r (m0 :: ms) Hwf Hops). reflexivity.
Qed.
End SharedMenu.

(** C6. Add-ons derived from this template share one Filters menu: enabling
    the well-formed add-ons [m0 :: ms], with distinct operator idnames, on a
    clean host lists every operator in the Filters menu in the order the
    add-ons were enabled, and the Image menu gets one [menu_func]. *)
Theorem register_all_shared_menu m0 ms :
  Forall wf_module (m0 :: ms) -> NoDup (map mod_op_bl_idname (m0 :: ms)) ->
  exists r, register_all (m0 :: ms) empty_registry = (r, Ok tt) /\
    reg_image_menu r = [HMenuFunc (mod_id m0)] /\
    draw_filters_menu r = map (fun m => IOperator (mod_BL_IDNAME m)) (m0 :: ms).
Proof.
  intros Hwf Hnd. inversion Hwf as [|? ? Hm0 Hms]; subst.
  destruct (menu_inv_first m0 Hm0) as [r1 [Hr1 Hinv1]].
  destruct (register_all_inv ms r1 m0 [] Hinv1 Hms Hnd) as [r [Hr Hinv]].
  exists r. simpl. rewrite (pym_bind_ok _ _ _ _ _ Hr1), Hr.
  split_and!; [done | apply Hinv | by apply (menu_inv_draw r m0 ms)].
Qed.

(** ** Disabling and enabling the add-on again *)

(** Enabling this add-on, then [k] times disabling it and enabling it
    again; the host reloads the module, so every enable registers the
    classes of a new module instance. *)
Fixpoint enable_cycles (k : nat) : PyM Registry unit :=
  match k with
  | O => register (this_module 0)
  | S k' => enable_cycles k';; unregister (this_module k');; register (this_module k)
  end.

Definition wrap_times (k : nat) : DrawFn :=
  Nat.iter k (fun f => DWrapped f BL_IDNAME) (DFilters BL_IDNAME).

Definition reload_inv (r : Registry) (k : nat) : Prop :=
  reg_types r !! "IMAGE_MT_filters" = Some (IMAGE_MT_filters (this_module 0)) /\
  draw_of r (IMAGE_MT_filters (this_module 0)) = Some (wrap_times k) /\
  reg_types r !! BL_IDNAME = Some (op_class (this_module k)) /\
  reg_image_menu r = [HMenuFunc 0].

Section Reload.
Lemma reload_inv_step r k :
  reload_inv r k ->
  exists r', (unregister (this_module k);; register (this_module (S k))) r = (r', Ok tt) /\
    reload_inv r' (S k).
Proof.
  intros (Hmenu & Hdraw & Hop & Hhooks).
  unfold unregister. rewrite (pym_bind_ok _ _ _ _ _ (unregister_class_run (op_class (this_module k)) r Hop)).
  set (r1 := mkReg _ _ _).
  assert (Hop1 : reg_types r1 !! "image.denoise" = None) by apply lookup_delete_eq.
  assert (Hmenu1 : reg_types r1 !! "IMAGE_MT_filters" = Some (IMAGE_MT_filters (this_module 0)))
    by (simpl; by rewrite lookup_delete_ne).
  assert (Hdraw1 : draw_of r1 (IMAGE_MT_filters (this_module 0)) = Some (wrap_times k)) by exact Hdraw.
  rewrite (register_wrap_run r1 (this_module (S k)) (IMAGE_MT_filters (this_module 0)) (wrap_times k));
    try done.
  - eexists; split; [reflexivity|]. unfold reload_inv, draw_of; simpl.
    split_and!; [by rewrite lookup_insert_ne, lookup_delete_ne
                | by rewrite lookup_insert_eq | by rewrite lookup_insert_eq | done].
  - simpl in *. by rewrite Hop1.
Qed.

Lemma enable_cycles_inv k :
  exists r, enable_cycles k empty_registry = (r, Ok tt) /\ reload_inv r k.
Proof.
  induction k as [|k [r [Hr Hinv]]].
  - simpl. rewrite (register_new_menu_run empty_registry (this_module 0)) by done.
    eexists; split; [reflexivity|]. unfold reload_inv, draw_of; simpl.
    split_and!; [by rewrite lookup_insert_eq | done | by rewrite lookup_insert_ne, lookup_insert_eq | done].
  - destruct (reload_inv_step r k Hinv) as [r' [Hr' Hinv']].
    exists r'. simpl. by rewrite (pym_bind_ok _ _ _ _ _ Hr).
Qed.

Lemma run_draw_wrap_times r k :
  run_draw r (wrap_times k) = replicate (S k) (layout_operator r BL_IDNAME).
Proof.
  induction k as [|k IH]; [done|].
  unfold wrap_times in *. simpl. rewrite IH. by rewrite <- replicate_S_end.
Qed.
End Reload.

(** C8. Every disable/enable cycle adds one more "Denoise" entry: after [k]
    cycles the Filters menu lists [image.denoise] [k + 1] times, all
    resolving to the registered operator, and the Image menu still has the
    single [menu_func] of the first instance. *)
Theorem enable_cycles_duplicate_entries k :
  exists r, enable_cycles k empty_registry = (r, Ok tt) /\
    reg_image_menu r = [HMenuFunc 0] /\
    draw_filters_menu r = replicate (S k) (IOperator BL_IDNAME).
Proof.
  destruct (enable_cycles_inv k) as [r [Hr (Hmenu & Hdraw & Hop & Hhooks)]].
  exists r. split_and!; [done | done |].
  unfold draw_filters_menu. rewrite Hmenu, Hdraw, run_draw_wrap_times.
  unfold layout_operator. by rewrite Hop.
Qed.

(** ** Witnesses *)

(** A template-derived add-on with its own operator. *)
Definition sharpen_module : AddonModule :=
  mkModule 1 "image.sharpen" "image.sharpen" "IMAGE_OT_sharpen".

(** A derived add-on that updated [BL_IDNAME] only. *)
Definition half_renamed_module : AddonModule :=
  mkModule 2 "image.sharpen" "image.denoise" "IMAGE_OT_sharpen".

Lemma register_fresh_witness :
  wf_module (this_module 0) /\
  exists r', register (this_module 0) empty_registry = (r', Ok tt) /\
    reg_types r' !! "image.denoise" = Some (op_class (this_module 0)) /\
    reg_image_menu r' = [HMenuFunc 0] /\
    draw_filters_menu r' = [IOperator "image.denoise"].
Proof.
  split; [split; [reflexivity | discriminate]|].
  apply register_fresh; [split; [reflexivity | discriminate] | discriminate | reflexivity | reflexivity].
Defined.

Lemma register_all_shared_menu_witness :
  exists r, register_all [this_module 0; sharpen_module] empty_registry = (r, Ok tt) /\
    reg_image_menu r = [HMenuFunc 0] /\
    draw_filters_menu r = [IOperator "image.denoise"; IOperator "image.sharpen"].
Proof.
  apply (register_all_shared_menu (this_module 0) [sharpen_module]).
  - repeat constructor; discriminate.
  - repeat constructor; vm_compute; intros H; inversion H as [|? ? ? Hin]; inversion Hin.
Defined.

Lemma unregister_leaves_stale_entry_witness :
  exists r1 r2, register (this_module 0) empty_registry = (r1, Ok tt) /\
    unregister (this_module 0) r1 = (r2, Ok tt) /\
    reg_types r2 !! "IMAGE_MT_filters" = Some (IMAGE_MT_filters (this_module 0)) /\
    reg_image_menu r2 = [HMenuFunc 0] /\
    draw_filters_menu r2 = [IUnknownOperator "image.denoise"].
Proof.
  apply unregister_leaves_stale_entry;
    [split; [reflexivity | discriminate] | reflexivity | reflexivity | reflexivity].
Defined.

Lemma register_twice_raises_witness :
  reg_types (fst (register (this_module 0) empty_registry)) !! "image.denoise" =
    Some (op_class (this_module 0)) /\
  register (this_module 0) (fst (register (this_module 0) empty_registry)) =
    (fst (register (this_module 0) empty_registry),
     Raise (ValueError "register_class(...): already registered as a subclass")).
Proof. split; [reflexivity | apply register_twice_raises; reflexivity]. Defined.

Lemma mismatched_idname_entry_witness :
  exists r', register half_renamed_module empty_registry = (r', Ok tt) /\
    draw_filters_menu r' = [IUnknownOperator "image.sharpen"].
Proof.
  apply mismatched_idname_entry;
    [discriminate | discriminate | discriminate | reflexivity | discriminate | reflexivity | reflexivity].
Defined.
