(* ===== verification/Lifecycle.v ===== *)
(** * Lifecycle: the add-on in a running host

    The whole host state the add-on touches: the data ([bpy.data]), the
    registry ([bpy.types] and the menus) and the props dialog the window
    manager keeps open after [invoke].  Events are what a user or the host
    does: enable an add-on instance ([register]), disable it
    ([unregister]), call [bpy.ops.image.denoise] with keywords (the host
    checks that the operator is registered and its [poll], builds the
    instance from the keywords, then runs [execute]), choose the menu entry
    ([invoke], which opens the dialog), confirm the dialog (the window
    manager checks [poll] again and runs [execute]) or cancel it.  [step]
    relates two host states by one event, whatever way the event's code
    ends (a raise keeps the changes made before it), and reachability is
    its reflexive-transitive closure.

    Theorems: invariants of every reachable state, proved by rule induction
    from one generic lemma (one [menu_func] at most in the Image menu; at
    most one temporary scene), the equivalence of
    the dialog path with a keyword call, an enable-invoke-confirm session,
    and that enabling the add-on always makes the operator callable. *)

From S2P Require Import Prelude Host Operator Props Registry.

(** ** State and events *)

Record Bpy := mkBpy {
  b_data : BData;
  b_reg : Registry;
  b_dialog : option IMAGE_OT_denoise
}.

Definition on_data {A} (c : PyM BData A) : PyM Bpy A :=
  fun s => let '(d', r) := c (b_data s) in (mkBpy d' (b_reg s) (b_dialog s), r).

Definition on_reg {A} (c : PyM Registry A) : PyM Bpy A :=
  fun s => let '(r', x) := c (b_reg s) in (mkBpy (b_data s) r' (b_dialog s), x).

Definition on_dialog {A} (c : PyM (option IMAGE_OT_denoise) A) : PyM Bpy A :=
  fun s => let '(w', x) := c (b_dialog s) in (mkBpy (b_data s) (b_reg s) w', x).

(** The operator [image.denoise] is registered. *)
Definition op_registered (r : Registry) : bool :=
  match reg_types r !! BL_IDNAME with
  | Some c => bool_decide (cls_kind c = KOperator)
  | None => false
  end.

Section Calls.
Context `{Denoiser}.

(** [bpy.ops.image.denoise(k=v, ...)] in context [ctx]: the host looks the
    operator up, checks [poll], builds the instance from the keywords, and
    runs [execute]. *)
Definition call_operator (ctx : Ctx) (kws : Kwargs) : PyM Bpy OpStatus :=
  fun s =>
    if negb (op_registered (b_reg s)) then
      (s, Raise (AttributeError "Calling operator bpy.ops.image.denoise error, could not be found"))
    else if negb (poll ctx) then
      (s, Raise (RuntimeError "Operator bpy.ops.image.denoise.poll() failed, context is incorrect"))
    else
      match props_of_kwargs kws with
      | Raise e => (s, Raise e)
      | Ok self => on_data (execute self ctx) s
      end.

(** Choosing the menu entry: the same checks, then [invoke]. *)
Definition menu_invoke (ctx : Ctx) (self : IMAGE_OT_denoise) : PyM Bpy OpStatus :=
  fun s =>
    if negb (op_registered (b_reg s)) then
      (s, Raise (AttributeError "Calling operator bpy.ops.image.denoise error, could not be found"))
    else if negb (poll ctx) then
      (s, Raise (RuntimeError "Operator bpy.ops.image.denoise.poll() failed, context is incorrect"))
    else on_dialog (invoke self ctx) s.

(** OK in the dialog: the dialog closes and the window manager executes
    the operator with the properties edited in the dialog; it checks [poll]
    again and cancels (without raising) when it fails. *)
Definition confirm (ctx : Ctx) : PyM Bpy OpStatus :=
  fun s =>
    match b_dialog s with
    | Some self =>
        let s0 := mkBpy (b_data s) (b_reg s) None in
        if negb (poll ctx) then (s0, Ok CANCELLED) else on_data (execute self ctx) s0
    | None => (s, Ok CANCELLED)
    end.

Definition cancel : PyM Bpy OpStatus :=
  fun s => (mkBpy (b_data s) (b_reg s) None, Ok CANCELLED).

Inductive event :=
  | Enable (m : AddonModule)
  | Disable (m : AddonModule)
  | Call (ctx : Ctx) (kws : Kwargs)
  | Invoke (ctx : Ctx) (self : IMAGE_OT_denoise)
  | Confirm (ctx : Ctx)
  | Cancel.

Definition run_event (e : event) : PyM Bpy unit :=
  match e with
  | Enable m => on_reg (register m)
  | Disable m => on_reg (unregister m)
  | Call ctx kws => _ ← call_operator ctx kws; mret tt
  | Invoke ctx self => _ ← menu_invoke ctx self; mret tt
  | Confirm ctx => _ ← confirm ctx; mret tt
  | Cancel => _ ← cancel; mret tt
  end.

(** The add-on instances the host enables are well formed. *)
Definition event_ok (e : event) : Prop :=
  match e with
  | Enable m | Disable m => wf_module m
  | _ => True
  end.

Inductive step : Bpy -> Bpy -> Prop :=
  | step_event e s : event_ok e -> step s (fst (run_event e s)).

Definition init (d : BData) : Bpy := mkBpy d empty_registry None.

Definition reachable (d0 : BData) (s : Bpy) : Prop := rtc step (init d0) s.
End Calls.

(** ** How events touch the three parts of the state *)

Section Parts.
Context `{Denoiser}.

Lemma on_reg_parts {A} (c : PyM Registry A) s :
  b_data (fst (on_reg c s)) = b_data s /\ b_reg (fst (on_reg c s)) = fst (c (b_reg s)).
Proof. unfold on_reg. by destruct (c (b_reg s)). Qed.

Lemma on_data_parts {A} (c : PyM BData A) s :
  b_data (fst (on_data c s)) = fst (c (b_data s)) /\ b_reg (fst (on_data c s)) = b_reg s.
Proof. unfold on_data. by destruct (c (b_data s)). Qed.

Lemma on_dialog_parts {A} (c : PyM (option IMAGE_OT_denoise) A) s :
  b_data (fst (on_dialog c s)) = b_data s /\ b_reg (fst (on_dialog c s)) = b_reg s.
Proof. unfold on_dialog. by destruct (c (b_dialog s)). Qed.

(** A run of the operator: the registry is kept and the data are kept or
    changed as [execute] changes them for some instance. *)
Definition runs_execute ctx (s s' : Bpy) : Prop :=
  b_reg s' = b_reg s /\
  (b_data s' = b_data s \/ exists self, b_data s' = fst (execute self ctx (b_data s))).

Lemma on_data_execute ctx self s : runs_execute ctx s (fst (on_data (execute self ctx) s)).
Proof. unfold runs_execute. destruct (on_data_parts (execute self ctx) s) as [-> ->]. split; eauto. Qed.

Lemma call_operator_parts ctx kws s : runs_execute ctx s (fst (call_operator ctx kws s)).
Proof.
  unfold call_operator.
  destruct (op_registered (b_reg s)), (poll ctx); simpl; [|by split; auto..].
  destruct (props_of_kwargs kws) as [self|e]; [apply on_data_execute | by split; auto].
Qed.

Lemma confirm_parts ctx s : runs_execute ctx s (fst (confirm ctx s)).
Proof.
  unfold confirm. destruct (b_dialog s) as [self|]; [|by split; auto].
  destruct (poll ctx); [apply (on_data_execute ctx self (mkBpy _ _ None)) | by split; auto].
Qed.

Lemma runs_execute_inv (I : BData -> Prop) (J : Registry -> Prop) ctx s s' :
  (forall self, preserves I (execute self ctx)) ->
  runs_execute ctx s s' -> I (b_data s) -> J (b_reg s) -> I (b_data s') /\ J (b_reg s').
Proof.
  intros HI [-> [-> | [self ->]]] Hi Hj; [done|]. split; [|done]. by apply preserves_fst.
Qed.

(** An invariant of the data kept by [execute] and an invariant of the
    registry kept by [register] and [unregister] hold in every reachable
    state. *)
Lemma reachable_inv (I : BData -> Prop) (J : Registry -> Prop) d0 s :
  (forall self ctx, preserves I (execute self ctx)) ->
  (forall m, wf_module m -> preserves J (register m)) ->
  (forall m, wf_module m -> preserves J (unregister m)) ->
  I d0 -> J empty_registry -> reachable d0 s -> I (b_data s) /\ J (b_reg s).
Proof.
  intros HI Hreg Hunreg Hd0 Hr0 Hs. unfold reachable in Hs.
  remember (init d0) as s0 eqn:E.
  assert (Hs0 : I (b_data s0) /\ J (b_reg s0)) by (subst; split; done).
  clear E Hd0 Hr0. induction Hs as [s0|s0 s1 s2 Hstep _ IH]; [done|].
  apply IH. destruct Hs0 as [Hi Hj]. inversion Hstep as [e ? Hok]; subst.
  destruct e as [m|m|ctx kws|ctx self|ctx|]; cbn [event_ok run_event] in Hok |- *;
    rewrite ?fst_bind_ret.
  - destruct (on_reg_parts (register m) s0) as [-> ->]. split; [done|]. apply preserves_fst; [by apply Hreg | done].
  - destruct (on_reg_parts (unregister m) s0) as [-> ->]. split; [done|]. apply preserves_fst; [by apply Hunreg | done].
  - by apply (runs_execute_inv I J ctx s0); [intros; apply HI | apply call_operator_parts | |].
  - unfold menu_invoke. destruct (op_registered _), (poll ctx); simpl; try done.
  - by apply (runs_execute_inv I J ctx s0); [intros; apply HI | apply confirm_parts | |].
  - done.
Qed.
End Parts.

(** ** The Image menu hooks *)

(** Either no Filters menu and no hook, or the Filters menu of one instance
    [m0], with a draw method, and exactly the hook of [m0]. *)
Definition hooks_inv (r : Registry) : Prop :=
  (reg_types r !! "IMAGE_MT_filters" = None /\ reg_image_menu r = []) \/
  (exists m0, reg_types r !! "IMAGE_MT_filters" = Some (IMAGE_MT_filters m0) /\
     reg_image_menu r = [HMenuFunc (mod_id m0)] /\ is_Some (draw_of r (IMAGE_MT_filters m0))).

Lemma draw_of_some r m0 : is_Some (draw_of r (IMAGE_MT_filters m0)).
Proof. unfold draw_of. by destruct (reg_draw r !! _). Qed.

Lemma register_hooks_inv m : wf_module m -> preserves hooks_inv (register m).
Proof.
  intros [Hid Hne] r Hr.
  destruct (decide (reg_types r !! mod_op_bl_idname m = Some (op_class m))) as [Hop|Hop].
  { unfold register. rewrite (pym_bind_raise _ _ _ _ _ (register_class_raise (op_class m) r Hop)).
    exact Hr. }
  destruct Hr as [[Hmenu Hh] | (m0 & Hmenu & Hh & [f Hf])].
  - rewrite (register_new_menu_run r m Hne Hop Hmenu). right. exists m. simpl.
    split_and!; [by rewrite lookup_insert_eq | by rewrite Hh | apply draw_of_some].
  - rewrite (register_wrap_run r m _ f Hne Hop Hmenu Hf). right. exists m0. simpl.
    split_and!; [by rewrite lookup_insert_ne | done | apply draw_of_some].
Qed.

Lemma unregister_hooks_inv m : wf_module m -> preserves hooks_inv (unregister m).
Proof.
  intros [Hid Hne] r Hr. unfold unregister.
  destruct (decide (reg_types r !! mod_op_bl_idname m = Some (op_class m))) as [Hop|Hop].
  - rewrite (unregister_class_run (op_class m) r Hop). simpl.
    destruct Hr as [[Hmenu Hh] | (m0 & Hmenu & Hh & Hd)]; [left | right; exists m0];
      simpl; rewrite lookup_delete_ne by done; done.
  - unfold unregister_class. by rewrite bool_decide_eq_false_2.
Qed.

Lemma draw_image_menu_hooks r ctx :
  hooks_inv r -> draw_image_menu r ctx = [] \/ draw_image_menu r ctx = menu_func ctx.
Proof.
  unfold draw_image_menu. intros [[_ ->] | (m0 & _ & -> & _)]; simpl; [left | right]; [done|].
  by rewrite app_nil_r.
Qed.

(** C11. However often add-ons derived from this template are enabled and
    disabled, operators called and dialogs used, the Image menu shows the
    separator and the Filters submenu at most once. *)
Theorem reachable_image_menu_once `{Denoiser} d0 s ctx :
  reachable d0 s ->
  draw_image_menu (b_reg s) ctx = [] \/ draw_image_menu (b_reg s) ctx = menu_func ctx.
Proof.
  intros Hs. apply draw_image_menu_hooks.
  apply (reachable_inv (fun _ => True) hooks_inv d0 s); try done.
  - intros self0 ctx0 s0 _. by destruct (execute self0 ctx0 s0) as [? []].
  - apply register_hooks_inv.
  - apply unregister_hooks_inv.
  - by left.
Qed.

(** ** The temporary scene *)

Lemma filter_absent (x : string) l :
  x ∉ l -> List.filter (fun y => bool_decide (y = x)) l = [].
Proof.
  induction l as [|y l IH]; simpl; intros Hx; [done|].
  rewrite bool_decide_eq_false_2 by set_solver. set_solver.
Qed.

Lemma ensure_scene_count d :
  scene_count SCENE_NAME d <= 1 -> scene_count SCENE_NAME (ensure_scene d) <= 1.
Proof.
  unfold ensure_scene. destruct (scenes_contains SCENE_NAME d) eqn:E; [done|].
  intros _. assert (Hn : ~ scene_present SCENE_NAME d) by (rewrite scene_present_contains; congruence).
  unfold scene_present, scene_count, scene_names in *; cbn [scenes].
  rewrite map_app, List.filter_app, length_app, filter_absent by done.
  cbn [map List.filter length sc_name]. rewrite bool_decide_eq_true_2 by done. simpl. lia.
Qed.

#[local] Hint Resolve copy_back_names setup_compositor_names : pym.

Lemma execute_count `{Denoiser} self ctx :
  preserves (fun d => scene_count SCENE_NAME d <= 1) (execute self ctx).
Proof.
  unfold execute. apply preserves_bind.
  { intros d Hd. rewrite create_scene_run. by apply ensure_scene_count. }
  intros scene.
  do 5 (apply preserves_bind; [apply count_preserves; auto with pym | intros ?]).
  apply preserves_bind; [apply scenes_remove_count | intros; apply preserves_ret].
Qed.

Lemma registry_true_preserves {A} (c : PyM Registry A) : preserves (fun _ => True) c.
Proof. intros r _. by destruct (c r) as [? []]. Qed.

(** C12. Starting from data with at most one scene named [SCENE_NAME],
    every reachable state has at most one: a run of [execute] that raises
    leaves its scene behind, and the next run takes that scene over instead
    of adding another. *)
Theorem reachable_one_temp_scene `{Denoiser} d0 s :
  scene_count SCENE_NAME d0 <= 1 -> reachable d0 s -> scene_count SCENE_NAME (b_data s) <= 1.
Proof.
  intros H0 Hs.
  apply (reachable_inv (fun d => scene_count SCENE_NAME d <= 1) (fun _ => True) d0 s);
    auto using execute_count, registry_true_preserves.
Qed.

(** ** The dialog path *)

Lemma props_of_kwargs_of self : props_of_kwargs (kwargs_of self) = Ok self.
Proof. unfold props_of_kwargs. rewrite fill_props_kwargs_of. by destruct self. Qed.

(** C13. Choosing the menu entry and confirming the dialog has the same
    effect on the data and the registry, and the same result, as calling
    [bpy.ops.image.denoise] with the keywords of the properties the dialog
    holds: the registration and [poll] checks of the call are the ones made
    when the entry is chosen, and the dialog runs [execute] on the same
    instance the keywords build. *)
Theorem invoke_confirm_is_call `{Denoiser} ctx self s :
  b_dialog s = None ->
  (_ ← menu_invoke ctx self; confirm ctx) s = call_operator ctx (kwargs_of self) s.
Proof.
  destruct s as [d r w]; simpl; intros ->.
  unfold mbind, pym_bind, menu_invoke, confirm, call_operator; simpl.
  destruct (op_registered r), (poll ctx); simpl; try done.
  by rewrite props_of_kwargs_of.
Qed.

(** ** Sequences of events *)

Fixpoint run_events `{Denoiser} (es : list event) (s : Bpy) : Bpy :=
  match es with
  | [] => s
  | e :: es' => run_events es' (fst (run_event e s))
  end.

Lemma run_events_rtc `{Denoiser} es s : Forall event_ok es -> rtc step s (run_events es s).
Proof.
  revert s. induction es as [|e es IH]; intros s Hok; simpl; [done|].
  inversion Hok; subst. eapply rtc_l; [by constructor | by apply IH].
Qed.

(** The registry after enabling instance [k] of this module in a fresh host. *)
Definition reg_new (k : nat) : Registry :=
  mkReg (<["IMAGE_MT_filters" := IMAGE_MT_filters (this_module k)]>
           (<["image.denoise" := op_class (this_module k)]> ∅))
        ∅ [HMenuFunc k].

Lemma wf_this_module k : wf_module (this_module k).
Proof. split; [reflexivity | discriminate]. Qed.

Lemma poll_edit ctx n : edit_image ctx = Some n -> poll ctx = true.
Proof. unfold poll. by intros ->. Qed.

Lemma register_this_fresh k : register (this_module k) empty_registry = (reg_new k, Ok tt).
Proof. by apply register_new_menu_run. Qed.

Lemma reg_new_op k : op_registered (reg_new k) = true.
Proof. reflexivity. Qed.

Lemma enable_fresh `{Denoiser} k d0 :
  fst (run_event (Enable (this_module k)) (init d0)) = mkBpy d0 (reg_new k) None.
Proof. cbn [run_event]. unfold on_reg, init. cbn [b_reg]. by rewrite register_this_fresh. Qed.

Lemma invoke_ready `{Denoiser} ctx self d r :
  op_registered r = true -> poll ctx = true ->
  fst (run_event (Invoke ctx self) (mkBpy d r None)) = mkBpy d r (Some self).
Proof.
  intros Ho Hp. cbn [run_event]. rewrite fst_bind_ret. unfold menu_invoke.
  cbn [b_reg]. by rewrite Ho, Hp.
Qed.

(** C14. In a fresh host, enabling the add-on, choosing Image > Filters >
    Denoise with an edited image [n] and confirming the dialog reaches a
    state in which the dialog is closed, the registry is the one [register]
    made, and the data satisfy the contract of [execute]: [n] holds the
    denoised pixels and the temporary scene is gone. *)
Theorem enable_invoke_confirm_denoises `{Denoiser} k ctx self d0 n im :
  image self = "" -> edit_image ctx = Some n -> image_lookup n (images d0) = Some im ->
  let s := run_events [Enable (this_module k); Invoke ctx self; Confirm ctx] (init d0) in
  reachable d0 s /\ b_dialog s = None /\
  b_reg s = fst (register (this_module k) empty_registry) /\
  denoise_contract n im (oidn (prefilter self) (use_hdr self) (img_pixels im)) d0 (b_data s).
Proof.
  intros Hi Hc Hl s.
  split; [apply run_events_rtc; repeat constructor; apply wf_this_module|].
  destruct (execute_ok self ctx d0 n im Hi Hc Hl) as (d' & Hex & Hcon).
  unfold s. cbn [run_events]. rewrite enable_fresh, invoke_ready by (reflexivity || exact (poll_edit ctx n Hc)).
  cbn [run_event]. rewrite fst_bind_ret. unfold confirm. cbn [b_dialog b_data b_reg].
  rewrite (poll_edit ctx n Hc). cbn [negb].
  unfold on_data. cbn [b_data]. rewrite Hex. by split_and!.
Qed.

(** ** The operator can always be made available *)

Lemma update_filters_menu_types k m r :
  k <> "IMAGE_MT_filters" ->
  reg_types (fst (update_filters_menu m r)) !! k = reg_types r !! k.
Proof.
  intros Hk. unfold update_filters_menu, mbind, pym_bind, gets. cbn.
  destruct (reg_types r !! "IMAGE_MT_filters") as [c|].
  - destruct (draw_of r c); reflexivity.
  - unfold register_class. cbn. case_bool_decide; [done|]. cbn.
    by rewrite lookup_insert_ne by done.
Qed.

Lemma register_this_registered k r : op_registered (fst (register (this_module k) r)) = true.
Proof.
  unfold register, mbind, pym_bind.
  destruct (decide (reg_types r !! "image.denoise" = Some (op_class (this_module k)))) as [Hop|Hop].
  - unfold register_class at 1. rewrite bool_decide_eq_true_2 by exact Hop. cbn.
    unfold op_registered. change BL_IDNAME with "image.denoise". by rewrite Hop.
  - unfold register_class at 1. rewrite bool_decide_eq_false_2 by exact Hop.
    change (cls_idname (op_class (this_module k))) with "image.denoise".
    pose proof (update_filters_menu_types "image.denoise" (this_module k)
      (mkReg (<["image.denoise" := op_class (this_module k)]> (reg_types r)) (reg_draw r)
             (reg_image_menu r)) ltac:(done)) as Hr'.
    destruct (update_filters_menu _ _) as [r' x] eqn:E. cbn in Hr' |- *.
    unfold op_registered. change BL_IDNAME with "image.denoise".
    rewrite Hr', lookup_insert_eq. by destruct x.
Qed.

(** C16. From every host state, enabling the add-on is a step after which
    the operator is registered, and every call made in a context with an
    edited image, with keywords that build an instance, runs [execute] on
    that instance: whatever happened before (a failed run, a stale menu,
    another add-on's operator of the same idname), the user can always get
    the operator to run. *)
Theorem enable_makes_callable `{Denoiser} (k : nat) (s : Bpy) :
  exists s', step s s' /\ op_registered (b_reg s') = true /\
    forall ctx kws self, poll ctx = true -> props_of_kwargs kws = Ok self ->
      call_operator ctx kws s' = on_data (execute self ctx) s'.
Proof.
  exists (fst (run_event (Enable (this_module k)) s)). split; [by constructor; apply wf_this_module|].
  assert (Hreg : op_registered (b_reg (fst (run_event (Enable (this_module k)) s))) = true).
  { cbn [run_event]. rewrite (proj2 (on_reg_parts _ _)). apply register_this_registered. }
  split; [exact Hreg|]. intros ctx kws self Hp Hk.
  unfold call_operator. by rewrite Hreg, Hp, Hk.
Qed.

(** ** Witnesses *)

(** A session: enable this add-on, make the call of line 168,
    [bpy.ops.image.denoise(image='noise.png')] (it raises and leaves its
    scene), enable a second template-derived
    add-on, denoise through the dialog, disable and enable this add-on
    again. *)
Definition demo_events : list event :=
  [Enable (this_module 0); Call demo_ctx [("image", LStr "noise.png")]; Enable sharpen_module;
   Invoke demo_ctx demo_op; Confirm demo_ctx; Disable (this_module 0);
   Enable (this_module 0)].

Definition demo_session : Bpy := @run_events clamp_denoiser demo_events (init demo_data).

Lemma demo_session_reachable : @reachable clamp_denoiser demo_data demo_session.
Proof. apply run_events_rtc. repeat constructor; discriminate. Defined.

Lemma reachable_image_menu_once_witness :
  @reachable clamp_denoiser demo_data demo_session /\
  (draw_image_menu (b_reg demo_session) demo_ctx = [] \/
   draw_image_menu (b_reg demo_session) demo_ctx = menu_func demo_ctx).
Proof.
  split; [exact demo_session_reachable|].
  exact (@reachable_image_menu_once clamp_denoiser demo_data demo_session demo_ctx
           demo_session_reachable).
Defined.

Lemma reachable_one_temp_scene_witness :
  scene_count SCENE_NAME demo_data <= 1 /\
  @reachable clamp_denoiser demo_data demo_session /\
  scene_count SCENE_NAME (b_data demo_session) <= 1.
Proof.
  assert (H0 : scene_count SCENE_NAME demo_data <= 1) by (vm_compute; lia).
  split_and!; [exact H0 | exact demo_session_reachable |].
  exact (@reachable_one_temp_scene clamp_denoiser demo_data demo_session H0
           demo_session_reachable).
Defined.

Lemma invoke_confirm_is_call_witness :
  b_dialog (init demo_data) = None /\
  (_ ← menu_invoke demo_ctx demo_op; @confirm clamp_denoiser demo_ctx)
    (init demo_data) = @call_operator clamp_denoiser demo_ctx (kwargs_of demo_op) (init demo_data).
Proof.
  split; [reflexivity|].
  exact (@invoke_confirm_is_call clamp_denoiser demo_ctx demo_op (init demo_data) eq_refl).
Defined.

Lemma enable_invoke_confirm_denoises_witness :
  image demo_op = "" /\ edit_image demo_ctx = Some "noise.png" /\
  image_lookup "noise.png" (images demo_data) = Some demo_image /\
  let s := @run_events clamp_denoiser
             [Enable (this_module 0); Invoke demo_ctx demo_op; Confirm demo_ctx] (init demo_data) in
  @reachable clamp_denoiser demo_data s /\ b_dialog s = None /\
  b_reg s = fst (register (this_module 0) empty_registry) /\
  denoise_contract "noise.png" demo_image [255; 0; 7]%Z demo_data (b_data s).
Proof.
  split_and!; [reflexivity | reflexivity | reflexivity |].
  exact (@enable_invoke_confirm_denoises clamp_denoiser 0 demo_ctx demo_op demo_data
           "noise.png" demo_image eq_refl eq_refl eq_refl).
Defined.

Lemma enable_makes_callable_witness :
  exists s', @step clamp_denoiser (init demo_data) s' /\ op_registered (b_reg s') = true /\
    poll demo_ctx = true /\ props_of_kwargs (kwargs_of demo_op) = Ok demo_op /\
    @call_operator clamp_denoiser demo_ctx (kwargs_of demo_op) s' =
      on_data (@execute clamp_denoiser demo_op demo_ctx) s'.
Proof.
  destruct (@enable_makes_callable clamp_denoiser 0 (init demo_data)) as (s' & Hs & Hr & Hc).
  exists s'. split_and!; [exact Hs | exact Hr | reflexivity | reflexivity |].
  apply Hc; reflexivity.
Defined.
