(* ===== verification/Addon.v ===== *)
(** * Addon: the module's metadata and entry point

    [bl_info] (lines 1-12), the labels the Filters menu and the operator
    show (lines 33, 54-55), and the script entry point (lines 166-167).
    These are constants read by the host's add-on manager and user
    interface; they have no behaviour of their own to prove, so this file
    holds their definitions only.  Enabling the add-on is [register] (see
    [Lifecycle]). *)

From S2P Require Import Prelude Registry.

(** ** Metadata *)

Record BlInfo := mkBlInfo {
  bl_name : string;
  bl_author : string;
  bl_version : nat * nat;
  bl_blender : nat * nat * nat;
  bl_location : string;
  bl_description : string;
  bl_warning : string;
  bl_doc_url : string;
  bl_support : string;
  bl_category : string
}.

Definition bl_info : BlInfo := {|
  bl_name := "Image Denoise Operator";
  bl_author := "Martin Lorentzon";
  bl_version := (1, 0);
  bl_blender := (4, 1, 0);
  bl_location := "Image Editor > Image > Filters";
  bl_description := "Denoise image with Open Image Denoise";
  bl_warning := "";
  bl_doc_url := "";
  bl_support := "COMMUNITY";
  bl_category := "Image"
|}.

(** [IMAGE_MT_filters.bl_label] (line 33). *)
Definition filters_bl_label : string := "Filters".

(** [IMAGE_OT_denoise.bl_label] and [bl_description] (lines 54-55). *)
Definition op_bl_label : string := "Denoise".
Definition op_bl_description : string := "Denoise image with Open Image Denoise".

(** [if __name__ == "__main__": register()]: running the file as a script
    registers this module. *)
Definition main : PyM Registry unit := register (this_module 0).
